(** * SOPSC realtime server: presence registry, router and push fallback

    A shallow embedding of [src/index.js].  The server keeps a global object
    [activeSockets] (user id -> number of open sockets), relays chat events
    between socket.io rooms and, for a direct message whose recipient has no
    open socket, asks a token directory for the recipient's push addresses
    and sends one push notification per address, retrying on HTTP 429.

    Layout of the file:
    - [value]: the JavaScript values that reach the handlers (JSON data and
      [undefined]), with truthiness, string conversion and member reads;
    - [cell]: what a slot of [activeSockets] can hold, inherited properties
      included, with the operators the code applies to it;
    - [prog]: the effects of the code (console, registry, socket.io, fetch,
      the Expo push API, timers), and [run], their interpretation against an
      environment, which yields the trace of calls, the final registry and
      the outcome (a result or a raised error);
    - the functions and handlers of [index.js], statement by statement;
    - observations on runs, histories of sockets, and sample data;
    - [startup]: the script that runs when the module is loaded, over the
      library calls it makes ([boot]);
    - the properties.

    What the model leaves out: the insides of the libraries that the
    startup script calls (each call is an event that returns or throws); the
    second argument of console calls; numbers that are not integers (the counts of
    the registry stay far below 2^53, where integers are exact); binary
    payloads.  The push senders that a direct message starts run
    concurrently: [sendDirectMessage] is the handler up to the list of
    senders that [Promise.all] receives, each sender is run on its own, and
    [direct_message_ends] says how the handler ends once they have run; the
    order in which the events of different senders interleave is left
    out.

    Main results:
    - the sender makes [k + 1] calls for [k <= 4] leading rate limits, with
      delays 1000 * 2^i, and never raises ([sendPushWithRetry_backoff],
      [sendPushWithRetry_invalid_address]);
    - the resolver absorbs every failure into the empty list and keeps order
      and multiplicity ([getPushTokens_absorbs_failures],
      [push_fanout_keeps_order_and_multiplicity]);
    - the router multicasts before it reads the registry, drops events
      without a routing key, raises on a missing payload and never writes
      the registry ([sendDirectMessage_emits_first],
      [missing_routing_key_dropped], [absent_payload_raises],
      [router_leaves_registry]);
    - the registry counts connections with a clamp at zero
      ([presence_counts], [presence_follows_connection_counts]), for the ids
      that do not collide with a property that the object [activeSockets]
      inherits; for the ids that do ([constructor], [toString], ...), the
      registry holds values that are not counts and misreports presence
      ([inherited_name_breaks_presence_counts],
      [inherited_name_breaks_invariant], [inherited_name_skips_push]);
    - through any history of connections and disconnections the registry
      holds, for an ordinary id, the number of open sockets of the user, and
      the push fallback follows it ([registry_counts_open_sockets],
      [push_fallback_follows_open_sockets]);
    - a sender is bounded by 5 calls and 15 seconds whatever it is given
      ([sendPushWithRetry_bounded]), and a handler raises exactly on a
      payload that is missing or does not print, [sendDirectMessage] also
      on a push address that does not print
      ([handlers_raise_on_unprintable_payloads]);
    - the startup script listens over http only: with a key and a
      certificate configured it ends on [server.listen], read from
      [undefined] ([startup_never_listens_with_ssl],
      [startup_listens_over_http]). *)

From stdpp Require Import base strings list gmap pretty.

Set Warnings "-register-all".

Open Scope Z_scope.

(** ** JavaScript values *)

(** Payloads and HTTP bodies are JSON data; a missing argument or member is
    [undefined].  Numbers are the integer-valued ones: fractions, NaN and
    infinities do not occur in the positions this program inspects.  An
    object lists its own members; the first binding of a name is its value. *)
Inductive value : Type :=
| VUndefined
| VNull
| VBool (b : bool)
| VNum (n : Z)
| VStr (s : string)
| VArr (items : list value)
| VObj (props : list (string * value)).

(** [Boolean(v)], the test of [if (v)], [v || d] and [filter(Boolean)]. *)
Definition truthy (v : value) : bool :=
  match v with
  | VUndefined | VNull => false
  | VBool b => b
  | VNum n => negb (n =? 0)
  | VStr s => negb (String.eqb s "")
  | VArr _ | VObj _ => true
  end.

Definition nullish (v : value) : bool :=
  match v with
  | VUndefined | VNull => true
  | _ => false
  end.

Fixpoint own_member (name : string) (props : list (string * value)) : option value :=
  match props with
  | [] => None
  | (k, v) :: rest => if String.eqb k name then Some v else own_member name rest
  end.

(** [v.name] and the destructuring [const { name } = v], for the member names
    this program reads ([recipientId], [senderId], [messageContent],
    [groupChatId], [messageId], [readerId], [items], [expoPushToken],
    [statusCode]): none of them is defined on a built-in prototype, so a
    value without an own member of that name reads as [undefined].  Reading a
    member of [undefined] or [null] is a TypeError ([None]). *)
Definition member (v : value) (name : string) : option value :=
  match v with
  | VUndefined | VNull => None
  | VObj props => Some (default VUndefined (own_member name props))
  | _ => Some VUndefined
  end.

(** [err?.statusCode]: optional chaining stops on [undefined] and [null]. *)
Definition opt_member (v : value) (name : string) : value :=
  default VUndefined (member v name).

(** [String(v)], as applied by template literals and by property keys.
    A JSON object has no callable [toString] of its own: it prints through
    [Object.prototype.toString] unless it carries an own member named
    [toString], which shadows the inherited method with a non-callable value
    and makes the conversion a TypeError ([None]).  An array prints its
    elements joined by commas, [undefined] and [null] as the empty string.
    A number is printed in full, as JavaScript prints the integers below
    10^21; from there on JavaScript switches to the exponent notation, which
    is not modelled. *)
Fixpoint to_string (v : value) : option string :=
  match v with
  | VUndefined => Some "undefined"
  | VNull => Some "null"
  | VBool true => Some "true"
  | VBool false => Some "false"
  | VNum n => Some (pretty n)
  | VStr s => Some s
  | VArr items =>
      (fix join (l : list value) : option string :=
         match l with
         | [] => Some ""
         | x :: rest =>
             match (if nullish x then Some "" else to_string x) with
             | None => None
             | Some sx =>
                 match rest with
                 | [] => Some sx
                 | _ :: _ =>
                     match join rest with
                     | None => None
                     | Some sr => Some (sx +:+ "," +:+ sr)
                     end
                 end
             end
         end) items
  | VObj props =>
      match own_member "toString" props with
      | Some _ => None
      | None => Some "[object Object]"
      end
  end.

(** A template literal: the pieces are converted and concatenated from left
    to right; the first failing conversion aborts it. *)
Fixpoint template (pieces : list (option string)) : option string :=
  match pieces with
  | [] => Some ""
  | None :: _ => None
  | Some s :: rest =>
      match template rest with
      | None => None
      | Some t => Some (s +:+ t)
      end
  end.

Definition lit (s : string) : option string := Some s.

(** The values whose conversion to a string cannot fail. *)
Definition scalar (v : value) : bool :=
  match v with
  | VArr _ | VObj _ => false
  | _ => true
  end.

(** ** The slots of [activeSockets] *)

(** [const activeSockets = {}] is an ordinary object: a read of
    [activeSockets[k]] that finds no own property continues in
    [Object.prototype].  [native] names what it finds there: a built-in
    function, or, for [__proto__], the prototype object itself. *)
Inductive native : Type :=
| BuiltinFunction (name : string)
| ObjectPrototype.

Definition native_text (o : native) : string :=
  match o with
  | BuiltinFunction f => "function " +:+ f +:+ "() { [native code] }"
  | ObjectPrototype => "[object Object]"
  end.

(** The own property names of [Object.prototype]. *)
Definition object_prototype (key : string) : option native :=
  if String.eqb key "__proto__" then Some ObjectPrototype
  else if String.eqb key "constructor" then Some (BuiltinFunction "Object")
  else if (String.eqb key "hasOwnProperty"
           || String.eqb key "isPrototypeOf"
           || String.eqb key "propertyIsEnumerable"
           || String.eqb key "toLocaleString"
           || String.eqb key "toString"
           || String.eqb key "valueOf"
           || String.eqb key "__defineGetter__"
           || String.eqb key "__defineSetter__"
           || String.eqb key "__lookupGetter__"
           || String.eqb key "__lookupSetter__")%bool
       then Some (BuiltinFunction key)
  else None.

(** What [activeSockets[k]] evaluates to, and what the code computes from it.
    [CText o ones] is the string made of the text of [o] followed by [ones]
    characters [1]: adding [1] to a function or to an object concatenates,
    and these are the only strings the code can store. *)
Inductive cell : Type :=
| CUndefined
| CNum (n : Z)
| CNaN
| CNative (o : native)
| CText (o : native) (ones : nat).

Definition cell_truthy (c : cell) : bool :=
  match c with
  | CUndefined | CNaN => false
  | CNum n => negb (n =? 0)
  | CNative _ | CText _ _ => true
  end.

(** [c || d] *)
Definition cell_or (c d : cell) : cell := if cell_truthy c then c else d.

(** [c + 1] *)
Definition cell_succ (c : cell) : cell :=
  match c with
  | CNum n => CNum (n + 1)
  | CUndefined | CNaN => CNaN
  | CNative o => CText o 1
  | CText o ones => CText o (S ones)
  end.

(** [c - 1]: a text that starts like [native_text] is not a numeric literal
    and converts to NaN. *)
Definition cell_pred (c : cell) : cell :=
  match c with
  | CNum n => CNum (n - 1)
  | _ => CNaN
  end.

(** [c <= 0]: false whenever the operand converts to NaN. *)
Definition cell_le0 (c : cell) : bool :=
  match c with
  | CNum n => n <=? 0
  | _ => false
  end.

(** [c === 0] *)
Definition cell_is0 (c : cell) : bool :=
  match c with
  | CNum n => n =? 0
  | _ => false
  end.

Definition cell_to_string (c : cell) : string :=
  match c with
  | CUndefined => "undefined"
  | CNum n => pretty n
  | CNaN => "NaN"
  | CNative o => native_text o
  | CText o ones => native_text o +:+ String.concat "" (replicate ones "1")
  end.

(** The own properties of [activeSockets]. *)
Abbreviation registry := (gmap string cell).

(** [activeSockets[key]] as an expression. *)
Definition reg_get (key : string) (reg : registry) : cell :=
  match reg !! key with
  | Some c => c
  | None =>
      match object_prototype key with
      | Some o => CNative o
      | None => CUndefined
      end
  end.

(** [activeSockets[key] = c].  Every property of [Object.prototype] but
    [__proto__] is a writable data property, so the assignment creates an own
    property; [__proto__] is an accessor whose setter ignores a value that is
    neither an object nor [null]. *)
Definition reg_set (key : string) (c : cell) (reg : registry) : registry :=
  if String.eqb key "__proto__" then reg else <[key := c]> reg.

(** [delete activeSockets[key]] *)
Definition reg_delete (key : string) (reg : registry) : registry :=
  delete key reg.

(** ** Effects *)

Inductive level : Type := Log | Warn | Error.

(** What a [throw] or a rejected promise carries: a TypeError raised by the
    language itself, or the rejection reason of an external call. *)
Inductive exn : Type :=
| TypeError
| SyntaxError
| Rejection (reason : value).

(** The [Response] of [fetch]: [res.ok], [res.status], and the outcome of
    [res.json()], [None] when the body is not JSON. *)
Record response : Type := Response {
  res_ok : bool;
  res_status : Z;
  res_json : option value
}.

Inductive fetch_reply : Type :=
| FetchRejected (reason : value)
| FetchResolved (res : response).

(** One entry of the batch given to [expo.sendPushNotificationsAsync]. *)
Record message : Type := Message {
  msg_to : value;
  msg_title : string;
  msg_body : value
}.

Inductive push_reply : Type :=
| PushResolved (tickets : value)
| PushRejected (err : value).

(** A computation of the server: a tree of the calls it makes to its
    environment, in program order.  Only the formatted first argument of a
    console call is kept. *)
Inductive prog (A : Type) : Type :=
| Ret (a : A)
| Throw (e : exn)
| Console (l : level) (text : string) (k : prog A)
| ActiveGet (key : string) (k : cell -> prog A)
| ActiveSet (key : string) (c : cell) (k : prog A)
| ActiveDelete (key : string) (k : prog A)
| SocketJoin (room : string) (k : prog A)
| IoEmit (room event : string) (payload : value) (k : prog A)
| Fetch (url : string) (k : fetch_reply -> prog A)
| SendPush (batch : list message) (k : push_reply -> prog A)
| SetTimeout (ms : Z) (k : prog A).

Arguments Ret {A} a.
Arguments Throw {A} e.
Arguments Console {A} l text k.
Arguments ActiveGet {A} key k.
Arguments ActiveSet {A} key c k.
Arguments ActiveDelete {A} key k.
Arguments SocketJoin {A} room k.
Arguments IoEmit {A} room event payload k.
Arguments Fetch {A} url k.
Arguments SendPush {A} batch k.
Arguments SetTimeout {A} ms k.

Fixpoint bind {A B : Type} (p : prog A) (f : A -> prog B) : prog B :=
  match p with
  | Ret a => f a
  | Throw e => Throw e
  | Console l text k => Console l text (bind k f)
  | ActiveGet key k => ActiveGet key (fun c => bind (k c) f)
  | ActiveSet key c k => ActiveSet key c (bind k f)
  | ActiveDelete key k => ActiveDelete key (bind k f)
  | SocketJoin room k => SocketJoin room (bind k f)
  | IoEmit room event payload k => IoEmit room event payload (bind k f)
  | Fetch url k => Fetch url (fun r => bind (k r) f)
  | SendPush batch k => SendPush batch (fun r => bind (k r) f)
  | SetTimeout ms k => SetTimeout ms (bind k f)
  end.

(** [try { body } catch (err) { handler }] *)
Fixpoint try_catch {A : Type} (body : prog A) (handler : exn -> prog A) : prog A :=
  match body with
  | Ret a => Ret a
  | Throw e => handler e
  | Console l text k => Console l text (try_catch k handler)
  | ActiveGet key k => ActiveGet key (fun c => try_catch (k c) handler)
  | ActiveSet key c k => ActiveSet key c (try_catch k handler)
  | ActiveDelete key k => ActiveDelete key (try_catch k handler)
  | SocketJoin room k => SocketJoin room (try_catch k handler)
  | IoEmit room event payload k => IoEmit room event payload (try_catch k handler)
  | Fetch url k => Fetch url (fun r => try_catch (k r) handler)
  | SendPush batch k => SendPush batch (fun r => try_catch (k r) handler)
  | SetTimeout ms k => SetTimeout ms (try_catch k handler)
  end.

#[global] Instance prog_ret : MRet prog := fun A a => Ret a.
#[global] Instance prog_bind : MBind prog := fun A B f p => bind p f.

(** A conversion or member read that raises a TypeError when it fails. *)
Definition lift {A : Type} (o : option A) : prog A :=
  match o with
  | Some a => Ret a
  | None => Throw TypeError
  end.

Definition console (l : level) (pieces : list (option string)) : prog unit :=
  text ← lift (template pieces); Console l text (Ret tt).

Definition active_get (key : string) : prog cell := ActiveGet key Ret.
Definition active_set (key : string) (c : cell) : prog unit := ActiveSet key c (Ret tt).
Definition active_delete (key : string) : prog unit := ActiveDelete key (Ret tt).
Definition socket_join (room : string) : prog unit := SocketJoin room (Ret tt).
Definition io_emit (room event : string) (payload : value) : prog unit :=
  IoEmit room event payload (Ret tt).
Definition fetch (url : string) : prog fetch_reply := Fetch url Ret.
Definition send_push (batch : list message) : prog push_reply := SendPush batch Ret.
Definition set_timeout (ms : Z) : prog unit := SetTimeout ms (Ret tt).

(** ** Interpretation *)

(** The environment of one run: what the token directory answers to a URL,
    and what the push API answers to the n-th call of the run (from 0). *)
Record world : Type := World {
  fetch_reply_of : string -> fetch_reply;
  push_reply_of : nat -> push_reply
}.

Inductive event : Type :=
| EConsole (l : level) (text : string)
| EActiveGet (key : string) (c : cell)
| EActiveSet (key : string) (c : cell)
| EActiveDelete (key : string)
| EJoin (room : string)
| EEmit (room event : string) (payload : value)
| EFetch (url : string)
| EPush (batch : list message)
| ETimeout (ms : Z).

Inductive result (A : Type) : Type :=
| Returned (a : A)
| Raised (e : exn).

Arguments Returned {A} a.
Arguments Raised {A} e.

Record run_of (A : Type) : Type := RunOf {
  trace : list event;
  final : registry;
  outcome : result A
}.

Arguments RunOf {A} trace final outcome.
Arguments trace {A} r.
Arguments final {A} r.
Arguments outcome {A} r.

Definition after {A : Type} (e : event) (r : run_of A) : run_of A :=
  RunOf (e :: trace r) (final r) (outcome r).

(** [run p w n reg]: the calls [p] makes, in order, the registry it leaves
    and how it ends, when started on registry [reg] after [n] earlier calls
    to the push API. *)
Fixpoint run {A : Type} (p : prog A) (w : world) (n : nat) (reg : registry) : run_of A :=
  match p with
  | Ret a => RunOf [] reg (Returned a)
  | Throw e => RunOf [] reg (Raised e)
  | Console l text k => after (EConsole l text) (run k w n reg)
  | ActiveGet key k =>
      let c := reg_get key reg in
      after (EActiveGet key c) (run (k c) w n reg)
  | ActiveSet key c k => after (EActiveSet key c) (run k w n (reg_set key c reg))
  | ActiveDelete key k => after (EActiveDelete key) (run k w n (reg_delete key reg))
  | SocketJoin room k => after (EJoin room) (run k w n reg)
  | IoEmit room event payload k => after (EEmit room event payload) (run k w n reg)
  | Fetch url k => after (EFetch url) (run (k (fetch_reply_of w url)) w n reg)
  | SendPush batch k => after (EPush batch) (run (k (push_reply_of w n)) w (S n) reg)
  | SetTimeout ms k => after (ETimeout ms) (run k w n reg)
  end.

(** ** The server *)

(** A connected client: [socket.id] and [socket.handshake.query.userId]
    (a string, or [undefined] when the client did not identify itself). *)
Record socket : Type := Socket {
  socket_id : string;
  handshake_userId : value
}.

(** [data.items?.map(t => t.expoPushToken).filter(Boolean) || []].
    [data.items] of [null] is a TypeError; [?.] stops on a missing [items];
    only an array has a [map] method; inside [map], a member read of a
    [null] record is a TypeError. *)
Definition tokens_of (data : value) : option (list value) :=
  items ← member data "items";
  if nullish items then Some []
  else match items with
       | VArr records =>
           tokens ← mapM (fun t => member t "expoPushToken") records;
           Some (List.filter truthy tokens)
       | _ => None
       end.

(** [err?.statusCode] of a caught error, and the test [=== 429]. *)
Definition status_code (e : exn) : value :=
  match e with
  | Rejection err => opt_member err "statusCode"
  | TypeError | SyntaxError => VUndefined
  end.

Definition is_429 (v : value) : bool :=
  match v with
  | VNum n => n =? 429
  | _ => false
  end.

(** [activeSockets[key] = (activeSockets[key] || 0) + 1] (line 97) *)
Definition markOnline (key : string) : prog unit :=
  c ← active_get key;
  active_set key (cell_succ (cell_or c (CNum 0))).

(** Lines 103 to 106:
    [activeSockets[key] = (activeSockets[key] || 1) - 1;
     if (activeSockets[key] <= 0) delete activeSockets[key]] *)
Definition markOffline (key : string) : prog unit :=
  c ← active_get key;
  active_set key (cell_pred (cell_or c (CNum 1)));;
  c' ← active_get key;
  if cell_le0 c' then active_delete key else Ret tt.

(** [const active = activeSockets[key] || 0] (line 121) *)
Definition active_of (key : string) (reg : registry) : cell :=
  cell_or (reg_get key reg) (CNum 0).

(** The presence test of the router: the push fallback runs when
    [active === 0] (line 122). *)
Definition isOnline (key : string) (reg : registry) : bool :=
  negb (cell_is0 (active_of key reg)).

Section Server.

(** [Expo.isExpoPushToken], the token-format check of expo-server-sdk, and
    [process.env.EXPO_PUBLIC_SOCKET_URL]. *)
Variable isExpoPushToken : value -> bool.
Variable EXPO_PUBLIC_SOCKET_URL : option string.

Definition baseUrl : string :=
  match EXPO_PUBLIC_SOCKET_URL with
  | Some url => if String.eqb url "" then "http://localhost:5000" else url
  | None => "http://localhost:5000"
  end.

Definition getPushTokens (userId : value) : prog (list value) :=
  try_catch
    (url ← lift (template [lit baseUrl; lit "/api/notifications/token/"; to_string userId]);
     reply ← fetch url;
     match reply with
     | FetchRejected reason => Throw (Rejection reason)
     | FetchResolved res =>
         if negb (res_ok res) then
           console Error [lit "[push] Failed to fetch tokens for user "; to_string userId;
                          lit ": status "; lit (pretty (res_status res))];;
           Ret []
         else
           match res_json res with
           | None => Throw SyntaxError
           | Some data => lift (tokens_of data)
           end
     end)
    (fun err =>
       console Error [lit "[push] Error fetching tokens for user "; to_string userId; lit ":"];;
       Ret []).

(** One turn of the [for] loop of [sendPushWithRetry]: [None] when the
    function returns, [Some delay'] when the loop goes on. *)
Definition attempt_once (msg : message) (expoPushToken : value) (attempt delay : Z)
  : prog (option Z) :=
  try_catch
    (reply ← send_push [msg];
     match reply with
     | PushRejected err => Throw (Rejection err)
     | PushResolved ticket =>
         console Log [lit "[push] Sent to "; to_string expoPushToken];;
         Ret None
     end)
    (fun err =>
       if is_429 (status_code err) && (attempt <? 4) then
         console Warn [lit "[push] Rate limited sending to "; to_string expoPushToken;
                       lit ". retrying in "; lit (pretty delay); lit "ms"];;
         set_timeout delay;;
         Ret (Some (delay * 2))
       else
         console Error [lit "[push] Failed to send to "; to_string expoPushToken];;
         Ret None).

(** [for (let attempt = 0; attempt < 5; attempt++)], entered at [attempt]
    with [left = 5 - attempt] turns to go. *)
Fixpoint attempts (left : nat) (msg : message) (expoPushToken : value) (attempt delay : Z)
  : prog unit :=
  match left with
  | O => Ret tt
  | S left' =>
      next ← attempt_once msg expoPushToken attempt delay;
      match next with
      | None => Ret tt
      | Some delay' => attempts left' msg expoPushToken (attempt + 1) delay'
      end
  end.

Definition sendPushWithRetry (expoPushToken messageContent : value) : prog unit :=
  if negb (isExpoPushToken expoPushToken) then
    console Warn [lit "[push] Invalid Expo push token: "; to_string expoPushToken]
  else
    attempts 5 (Message expoPushToken "New message" messageContent) expoPushToken 0 1000.

(** [io.on('connection', socket => ...)], up to the registration of the
    handlers. *)
Definition connection (sock : socket) : prog unit :=
  let userId := handshake_userId sock in
  console Log [lit "[socket.io] New connection: socket.id="; lit (socket_id sock);
               lit ", userId="; to_string userId];;
  if truthy userId then
    room ← lift (template [lit "user:"; to_string userId]);
    socket_join room;;
    key ← lift (to_string userId);
    markOnline key;;
    c ← active_get key;
    console Log [lit "[socket.io] Joined room user:"; to_string userId;
                 lit "; active connections="; lit (cell_to_string c)]
  else Ret tt.

(** [socket.on('disconnect', ...)]: the handler exists only for a socket
    that passed the [if (userId)] of [connection]. *)
Definition disconnect (sock : socket) : prog unit :=
  let userId := handshake_userId sock in
  if truthy userId then
    key ← lift (to_string userId);
    markOffline key;;
    c ← active_get key;
    console Log [lit "[socket.io] socket.id="; lit (socket_id sock);
                 lit " disconnected; user:"; to_string userId;
                 lit " connections="; lit (cell_to_string (cell_or c (CNum 0)))]
  else Ret tt.

(** [socket.on('sendDirectMessage', async payload => ...)].  The handler
    ends in [await Promise.all(tokens.map(token => sendPushWithRetry(token,
    messageContent)))]: the result is the list of the calls that [map]
    made, one computation per call, which then proceed independently of
    each other. *)
Definition sendDirectMessage (payload : value) : prog (list (prog unit)) :=
  recipientId ← lift (member payload "recipientId");
  senderId ← lift (member payload "senderId");
  messageContent ← lift (member payload "messageContent");
  console Log [lit "[sendDirectMessage] "; to_string senderId; lit " → ";
               to_string recipientId; lit ": "; to_string messageContent];;
  if truthy recipientId then
    room ← lift (template [lit "user:"; to_string recipientId]);
    io_emit room "newDirectMessage" payload;;
    key ← lift (to_string recipientId);
    c ← active_get key;
    let active := cell_or c (CNum 0) in
    if cell_is0 active then
      tokens ← getPushTokens recipientId;
      Ret (map (fun token => sendPushWithRetry token messageContent) tokens)
    else
      console Log [lit "[sendDirectMessage] recipient "; to_string recipientId;
                   lit " has "; lit (cell_to_string active);
                   lit " active socket(s); skipping push"];;
      Ret []
  else Ret [].

Definition sendGroupMessage (payload : value) : prog unit :=
  groupChatId ← lift (member payload "groupChatId");
  messageContent ← lift (member payload "messageContent");
  console Log [lit "[sendGroupMessage] Group "; to_string groupChatId; lit ": ";
               to_string messageContent];;
  if truthy groupChatId then
    room ← lift (template [lit "group:"; to_string groupChatId]);
    io_emit room "newGroupMessage" payload
  else Ret tt.

Definition directMessageRead (payload : value) : prog unit :=
  messageId ← lift (member payload "messageId");
  senderId ← lift (member payload "senderId");
  readerId ← lift (member payload "readerId");
  console Log [lit "[directMessageRead] messageId="; to_string messageId;
               lit " read by "; to_string readerId];;
  if truthy senderId then
    room ← lift (template [lit "user:"; to_string senderId]);
    io_emit room "directMessageRead" payload
  else Ret tt.

Definition joinGroup (sock : socket) (payload : value) : prog unit :=
  groupChatId ← lift (member payload "groupChatId");
  console Log [lit "[joinGroup] socket.id="; lit (socket_id sock);
               lit " joining group:"; to_string groupChatId];;
  if truthy groupChatId then
    room ← lift (template [lit "group:"; to_string groupChatId]);
    socket_join room
  else Ret tt.

End Server.

(** ** Observations on a run *)

(** The batches handed to the push API, in order. *)
Fixpoint batches (t : list event) : list (list message) :=
  match t with
  | [] => []
  | EPush batch :: t' => batch :: batches t'
  | _ :: t' => batches t'
  end.

(** The delays of the timers started, in order. *)
Fixpoint timeouts (t : list event) : list Z :=
  match t with
  | [] => []
  | ETimeout ms :: t' => ms :: timeouts t'
  | _ :: t' => timeouts t'
  end.

(** The rooms, events and payloads of the multicasts, in order. *)
Fixpoint emitted (t : list event) : list (string * string * value) :=
  match t with
  | [] => []
  | EEmit room ev payload :: t' => (room, ev, payload) :: emitted t'
  | _ :: t' => emitted t'
  end.

(** The URLs requested from the token directory, in order. *)
Fixpoint fetched (t : list event) : list string :=
  match t with
  | [] => []
  | EFetch url :: t' => url :: fetched t'
  | _ :: t' => fetched t'
  end.

(** The rooms joined, in order. *)
Fixpoint joined (t : list event) : list string :=
  match t with
  | [] => []
  | EJoin room :: t' => room :: joined t'
  | _ :: t' => joined t'
  end.

(** An event that reads or writes the registry. *)
Definition touches_registry (e : event) : bool :=
  match e with
  | EActiveGet _ _ | EActiveSet _ _ | EActiveDelete _ => true
  | _ => false
  end.

(** An event that changes the registry. *)
Definition is_write (e : event) : bool :=
  match e with
  | EActiveSet _ _ | EActiveDelete _ => true
  | _ => false
  end.

(** An event of the push path: a request to the token directory, a call to
    the push API or a timer. *)
Definition push_path (e : event) : bool :=
  match e with
  | EFetch _ | EPush _ | ETimeout _ => true
  | _ => false
  end.

(** A computation that never assigns to or deletes from [activeSockets]. *)
Fixpoint writes_nothing {A : Type} (p : prog A) : Prop :=
  match p with
  | Ret _ | Throw _ => True
  | ActiveSet _ _ _ | ActiveDelete _ _ => False
  | Console _ _ k | SocketJoin _ k | IoEmit _ _ _ k | SetTimeout _ k => writes_nothing k
  | ActiveGet _ k => forall c, writes_nothing (k c)
  | Fetch _ k => forall r, writes_nothing (k r)
  | SendPush _ k => forall r, writes_nothing (k r)
  end.

(** *** The push API as the sender sees it *)

(** A reply of the push API that the sender treats as a rate limit:
    a rejection whose [statusCode] is the number 429. *)
Definition rate_limited (r : push_reply) : bool :=
  match r with
  | PushRejected err => is_429 (opt_member err "statusCode")
  | PushResolved _ => false
  end.

(** How many replies in a row, from call [n] on and at most [bound], are
    rate limits. *)
Fixpoint limited_run (w : world) (n bound : nat) : nat :=
  match bound with
  | O => O
  | S bound' =>
      if rate_limited (push_reply_of w n) then S (limited_run w (S n) bound') else O
  end.

(** [delay], [2 * delay], [4 * delay], ... ([k] terms). *)
Fixpoint doubling (delay : Z) (k : nat) : list Z :=
  match k with
  | O => []
  | S k' => delay :: doubling (delay * 2) k'
  end.

(** The console line that ends a delivery to the address that prints as
    [address]. *)
Definition report (address : string) (r : push_reply) : event :=
  match r with
  | PushResolved _ => EConsole Log ("[push] Sent to " +:+ address)
  | PushRejected _ => EConsole Error ("[push] Failed to send to " +:+ address)
  end.

(** *** The token directory as the resolver sees it *)

(** The URL [getPushTokens] requests for the user that prints as [user]. *)
Definition token_url (socket_url : option string) (user : string) : string :=
  baseUrl socket_url +:+ "/api/notifications/token/" +:+ user.

(** The push-address field of a token record. *)
Definition address_of (record : value) : value := opt_member record "expoPushToken".

(** The token directory answers [url] with a success status and a JSON body
    whose [items] is the array [records] of token records. *)
Definition directory_lists (w : world) (url : string) (records : list value) : Prop :=
  exists res data,
    fetch_reply_of w url = FetchResolved res /\ res_ok res = true /\
    res_json res = Some data /\ member data "items" = Some (VArr records) /\
    Forall (fun t => nullish t = false) records.

(** A JSON body that is not of the expected shape: [null]; an [items] that is
    present and not an array; an array with a [null] record. *)
Definition malformed (data : value) : Prop :=
  nullish data = true \/
  exists items,
    member data "items" = Some items /\ nullish items = false /\
    match items with
    | VArr records => Exists (fun t => nullish t = true) records
    | _ => True
    end.

(** *** Sequences of registry updates *)

(** The two registry updates of the connection handlers, as calls:
    [MarkOnline user] is line 97 run for [user], [MarkOffline user] is lines
    103 to 106. *)
Inductive call : Type :=
| MarkOnline (user : string)
| MarkOffline (user : string).

Definition call_prog (c : call) : prog unit :=
  match c with
  | MarkOnline user => markOnline user
  | MarkOffline user => markOffline user
  end.

(** An environment in which no external service answers. *)
Definition silent : world :=
  World (fun _ => FetchRejected VUndefined) (fun _ => PushRejected VUndefined).

(** The registry after the calls [calls], made in order from [reg]. *)
Fixpoint exec (calls : list call) (reg : registry) : registry :=
  match calls with
  | [] => reg
  | c :: rest => exec rest (final (run (call_prog c) silent 0 reg))
  end.

(** The number of [MarkOnline user] and of [MarkOffline user] calls. *)
Definition marks_online (user : string) (c : call) : bool :=
  match c with
  | MarkOnline u => String.eqb u user
  | MarkOffline _ => false
  end.

Definition marks_offline (user : string) (c : call) : bool :=
  match c with
  | MarkOffline u => String.eqb u user
  | MarkOnline _ => false
  end.

Definition ons (user : string) (calls : list call) : nat :=
  length (List.filter (marks_online user) calls).

Definition offs (user : string) (calls : list call) : nat :=
  length (List.filter (marks_offline user) calls).

(** A counter that goes up on [MarkOnline user], down on [MarkOffline user]
    and never below zero. *)
Definition level_step (user : string) (lvl : nat) (c : call) : nat :=
  if marks_online user c then S lvl
  else if marks_offline user c then Nat.pred lvl
  else lvl.

Definition level_from (user : string) (lvl : nat) (calls : list call) : nat :=
  fold_left (level_step user) calls lvl.

(** The own property, and the value read, for a user whose counter is
    [lvl] and whose id names no inherited property. *)
Definition entry_of (lvl : nat) : option cell :=
  match lvl with
  | O => None
  | S _ => Some (CNum (Z.of_nat lvl))
  end.

Definition cell_of (lvl : nat) : cell :=
  match lvl with
  | O => CUndefined
  | S _ => CNum (Z.of_nat lvl)
  end.

(** The invariant of the registry, for the ids that name no inherited
    property: an entry is a positive count. *)
Definition counts_positive (reg : registry) : Prop :=
  forall key c, object_prototype key = None -> reg !! key = Some c ->
                exists count, c = CNum count /\ 0 < count.

(** ** Sample data *)

(** A token-format check that accepts the strings that start with
    ExponentPushToken and an opening bracket. *)
Definition bracketed_token (v : value) : bool :=
  match v with
  | VStr s => String.prefix "ExponentPushToken[" s
  | _ => false
  end.

(** A push API that is rate limited four times and then accepts, and one
    that fails at once with status 500. *)
Definition limited_four_times : world :=
  World (fun _ => FetchRejected VUndefined)
        (fun i => if (i <? 4)%nat
                  then PushRejected (VObj [("statusCode", VNum 429)])
                  else PushResolved (VArr [VObj [("status", VStr "ok")]])).

Definition failing_at_once : world :=
  World (fun _ => FetchRejected VUndefined)
        (fun _ => PushRejected (VObj [("statusCode", VNum 500)])).

(** A directory that lists, for [user], two records with an address and one
    without, and answers 500 for any other user. *)
Definition sample_records : list value :=
  [VObj [("expoPushToken", VStr "ExponentPushToken[one]")];
   VObj [("id", VNum 7)];
   VObj [("expoPushToken", VStr "ExponentPushToken[two]")]].

Definition sample_directory (user : string) : world :=
  World (fun url =>
           if String.eqb url (token_url None user)
           then FetchResolved (Response true 200 (Some (VObj [("items", VArr sample_records)])))
           else FetchResolved (Response false 500 None))
        (fun _ => PushResolved (VArr [])).

(** A direct message from A, and one without a recipient. *)
Definition hi_to (recipient : string) : value :=
  VObj [("senderId", VStr "A"); ("recipientId", VStr recipient); ("messageContent", VStr "hi")].

Definition unaddressed : value :=
  VObj [("senderId", VStr "A"); ("messageContent", VStr "hi")].

(** A registry in which user [A] has one open socket and nobody else any. *)
Definition only_A_online : registry := {["A" := CNum 1]}.

(** *** Histories of sockets *)

(** What happens to the sockets over time: a client connects, a connected
    client goes away.  [handler_of] is the handler that socket.io runs. *)
Inductive session_event : Type :=
| Connects (sock : socket)
| Disconnects (sock : socket).

Definition handler_of (e : session_event) : prog unit :=
  match e with
  | Connects sock => connection sock
  | Disconnects sock => disconnect sock
  end.

(** The registry after the handlers of [history] have run, in order. *)
Fixpoint serve (history : list session_event) (reg : registry) : registry :=
  match history with
  | [] => reg
  | e :: rest => serve rest (final (run (handler_of e) silent 0 reg))
  end.

(** [sessions open history open']: from the open sockets [open], the history
    [history], in which only an open socket disconnects, leaves the sockets
    [open'] open. *)
Inductive sessions : list socket -> list session_event -> list socket -> Prop :=
| sessions_done open : sessions open [] open
| sessions_connect open sock history open' :
    sessions (sock :: open) history open' ->
    sessions open (Connects sock :: history) open'
| sessions_disconnect before sock later history open' :
    sessions (before ++ later) history open' ->
    sessions (before ++ sock :: later) (Disconnects sock :: history) open'.

(** The socket identified itself as the user whose registry key is [key]. *)
Definition identifies (key : string) (sock : socket) : bool :=
  truthy (handshake_userId sock)
  && match to_string (handshake_userId sock) with
     | Some k => String.eqb k key
     | None => false
     end.

(** The number of sockets of [open] that belong to the user [key]. *)
Definition sockets_of (key : string) (open : list socket) : nat :=
  length (List.filter (identifies key) open).

(** The user of a registry call. *)
Definition user_of (c : call) : string :=
  match c with
  | MarkOnline user | MarkOffline user => user
  end.

(** The number of connections, and of disconnections, of sockets of the
    user [key] in a history: how often line 97, and how often lines 103 to
    106, ran for that user. *)
Definition connects (key : string) (history : list session_event) : nat :=
  length (List.filter (fun e => match e with
                                | Connects sock => identifies key sock
                                | Disconnects _ => false
                                end) history).

Definition disconnects (key : string) (history : list session_event) : nat :=
  length (List.filter (fun e => match e with
                                | Connects _ => false
                                | Disconnects sock => identifies key sock
                                end) history).

(** *** Further observations *)

(** The console lines of a trace, with their levels, in order. *)
Fixpoint console_lines (t : list event) : list (level * string) :=
  match t with
  | [] => []
  | EConsole l text :: t' => (l, text) :: console_lines t'
  | _ :: t' => console_lines t'
  end.

(** The sum of the delays waited. *)
Definition total_delay (t : list event) : Z := fold_right Z.add 0 (timeouts t).

(** The token record that carries the push address [address]. *)
Definition record_of (address : value) : value := VObj [("expoPushToken", address)].

(** A computation that only calls the push API, the console and timers. *)
Fixpoint sends_only {A : Type} (p : prog A) : Prop :=
  match p with
  | Ret _ | Throw _ => True
  | Console _ _ k | SetTimeout _ k => sends_only k
  | SendPush _ k => forall r, sends_only (k r)
  | ActiveGet _ _ | ActiveSet _ _ _ | ActiveDelete _ _
  | SocketJoin _ _ | IoEmit _ _ _ _ | Fetch _ _ => False
  end.

(** An event of a push sender. *)
Definition sender_event (e : event) : bool :=
  match e with
  | EPush _ | EConsole _ _ | ETimeout _ => true
  | _ => false
  end.

(** *** Payloads that make a handler raise *)

(** The value converts to a string. *)
Definition prints (v : value) : bool :=
  match to_string v with
  | Some _ => true
  | None => false
  end.

(** The payload cannot be destructured, or one of its fields [names] does
    not convert to a string. *)
Definition blocked (payload : value) (names : list string) : bool :=
  nullish payload || existsb (fun name => negb (prints (opt_member payload name))) names.

(** The run ended with a TypeError. *)
Definition type_error {A : Type} (r : run_of A) : bool :=
  match outcome r with
  | Raised TypeError => true
  | _ => false
  end.

(** The run ended with a value. *)
Definition returned {A : Type} (r : run_of A) : bool :=
  match outcome r with
  | Returned _ => true
  | Raised _ => false
  end.

(** A run that reached nobody and changed nothing. *)
Definition delivered_nothing {A : Type} (r : run_of A) (reg : registry) : Prop :=
  emitted (trace r) = [] /\ joined (trace r) = [] /\ fetched (trace r) = []
  /\ batches (trace r) = [] /\ final r = reg.

(** *** A direct message to its end *)

(** The handler of [sendDirectMessage] ends, for an offline recipient, in
    [await Promise.all(tokens.map(token => sendPushWithRetry(token,
    messageContent)))] (line 124).  [map] starts every sender; the senders
    then run concurrently, and each runs to its end whatever becomes of the
    others.  [started] is the list of senders that [map] made (none when the
    handler raised before); sender [i] meets the replies [replies i] that
    the push API gives to its own calls. *)
Definition started (r : run_of (list (prog unit))) : list (prog unit) :=
  match outcome r with
  | Returned senders => senders
  | Raised _ => []
  end.

Fixpoint sender_runs (senders : list (prog unit)) (replies : nat -> world) (reg : registry)
  : list (run_of unit) :=
  match senders with
  | [] => []
  | sender :: rest =>
      run sender (replies 0%nat) 0 reg :: sender_runs rest (fun i => replies (S i)) reg
  end.

(** [await Promise.all(promises)]: it returns when every promise is
    fulfilled, and raises the reason of a promise that is rejected (of the
    one that is rejected first, which depends on the timing). *)
Inductive promise_all : list (run_of unit) -> result unit -> Prop :=
| promise_all_fulfilled runs :
    Forall (fun r => returned r = true) runs -> promise_all runs (Returned tt)
| promise_all_rejected runs r e :
    r ∈ runs -> outcome r = Raised e -> promise_all runs (Raised e).

Section DirectMessageEnd.

Variable isExpoPushToken : value -> bool.
Variable socket_url : option string.

(** How the handler ends: with the exception that it raised before line
    124, or as the [await] of line 124 ends. *)
Inductive direct_message_ends (payload : value) (w : world) (n : nat) (reg : registry)
    (replies : nat -> world) : result unit -> Prop :=
| ends_before_the_senders e :
    outcome (run (sendDirectMessage isExpoPushToken socket_url payload) w n reg) = Raised e ->
    direct_message_ends payload w n reg replies (Raised e)
| ends_with_the_senders senders e :
    outcome (run (sendDirectMessage isExpoPushToken socket_url payload) w n reg)
    = Returned senders ->
    promise_all (sender_runs senders replies reg) e ->
    direct_message_ends payload w n reg replies e.

(** The push addresses that the handler obtains for the recipient of
    [payload]: what [getPushTokens] returns when the recipient is truthy and
    reported offline (lines 118 to 123), none otherwise. *)
Definition addressed (payload : value) (w : world) (n : nat) (reg : registry) : list value :=
  let recipientId := opt_member payload "recipientId" in
  match to_string recipientId with
  | Some key =>
      if truthy recipientId && negb (isOnline key reg) then
        match outcome (run (getPushTokens socket_url recipientId) w n reg) with
        | Returned tokens => tokens
        | Raised _ => []
        end
      else []
  | None => []
  end.

End DirectMessageEnd.

(** ** The startup script *)

(** Lines 10 to 39 and 160 to 166 run once, when the module is loaded.
    The script is a sequence of calls into libraries (dotenv, express, cors,
    fs, http, https, socket.io, expo-server-sdk), each of which returns or
    throws, around a few decisions of its own: the name of the env file, the
    port, the choice between the http and the https server, and the address
    it announces. *)

Inductive server_kind : Type := HttpServer | HttpsServer.

Inductive boot_call : Type :=
| DotenvConfig (path : string)
| Express
| Cors
| AppUse
| ReadFileSync (path : value)
| HttpsCreateServer (key cert : string)
| HttpCreateServer
| NewServer (srv : option server_kind)
| NewExpo
| IoOnConnection
| ServerListen (srv : server_kind) (port : value) (callback : prog unit).

(** How the script can end early: a library call throws;
    a template cannot print; [server.listen] is read from [undefined]. *)
Inductive boot_exn : Type :=
| Thrown (c : boot_call)
| NotPrintable
| ListenOfUndefined.

(** A piece of the script: the library calls that returned, in order, and
    the value or the exception it ends with. *)
Record boot (A : Type) : Type := Boot {
  boot_calls : list boot_call;
  boot_ended : boot_exn + A
}.

Arguments Boot {A} _ _.
Arguments boot_calls {A} _.
Arguments boot_ended {A} _.

#[global] Instance boot_ret : MRet boot := fun A a => Boot [] (inr a).
#[global] Instance boot_bind : MBind boot := fun A B f p =>
  match boot_ended p with
  | inl e => Boot (boot_calls p) (inl e)
  | inr a => Boot (boot_calls p ++ boot_calls (f a)) (boot_ended (f a))
  end.

(** [process.env] holds strings; a variable that is not set reads as
    [undefined]. *)
Definition env_var (env : gmap string string) (name : string) : value :=
  match env !! name with
  | Some s => VStr s
  | None => VUndefined
  end.

(** The machine the script runs on: what [dotenv.config] makes of
    [process.env] given the path of the env file, the contents of the files,
    and the library calls that throw. *)
Record host : Type := Host {
  dotenv_config : string -> gmap string string -> gmap string string;
  read_file : value -> string;
  throws : boot_call -> bool
}.

Definition lib (h : host) (c : boot_call) : boot unit :=
  if throws h c then Boot [] (inl (Thrown c)) else Boot [c] (inr tt).

Definition readFileSync (h : host) (path : value) : boot string :=
  lib h (ReadFileSync path);; mret (read_file h path).

(** Lines 10 to 12 *)
Definition envFile (env : gmap string string) : string :=
  match env_var env "NODE_ENV" with
  | VStr s => if String.eqb s "production" then ".env" else ".env.development"
  | _ => ".env.development"
  end.

(** [process.env.PORT || 3001] (line 19) *)
Definition PORT (env : gmap string string) : value :=
  let port := env_var env "PORT" in
  if truthy port then port else VNum 3001.

(** The test of line 23. *)
Definition ssl_configured (env : gmap string string) : bool :=
  truthy (env_var env "SSL_KEY_PATH") && truthy (env_var env "SSL_CERT_PATH").

(** The callback of [server.listen] (lines 164 and 165). *)
Definition listening (SOCKET_URL port : value) : prog unit :=
  console Log [lit "✅ Socket server running on address "; to_string SOCKET_URL];;
  console Log [lit "✅ Socket server running on port "; to_string port].

(** The script.  In the branch of line 23 the [const server] of line 26 is
    a new binding, local to the block: the [server] of line 20, which lines
    33 and 163 read, is still [undefined] after it. *)
Definition startup (h : host) (env0 : gmap string string) : boot unit :=
  lib h (DotenvConfig (envFile env0));;
  let env := dotenv_config h (envFile env0) env0 in
  lib h Express;;
  lib h Cors;;
  lib h AppUse;;
  let port := PORT env in
  chosen ← (if ssl_configured env then
              key ← readFileSync h (env_var env "SSL_KEY_PATH");
              cert ← readFileSync h (env_var env "SSL_CERT_PATH");
              lib h (HttpsCreateServer key cert);;
              mret (None, "https")
            else
              lib h HttpCreateServer;;
              mret (Some HttpServer, "http"));
  let server : option server_kind := chosen.1 in
  let protocol : string := chosen.2 in
  lib h (NewServer server);;
  lib h NewExpo;;
  lib h IoOnConnection;;
  SOCKET_URL ← (let url := env_var env "EXPO_PUBLIC_SOCKET_URL" in
                if truthy url then mret url
                else match template [lit protocol; lit "://localhost:"; to_string port] with
                     | Some text => mret (VStr text)
                     | None => Boot [] (inl NotPrintable)
                     end);
  match server with
  | None => Boot [] (inl ListenOfUndefined)
  | Some srv => lib h (ServerListen srv port (listening SOCKET_URL port))
  end.

(** The call opens a port. *)
Definition listens (c : boot_call) : bool :=
  match c with
  | ServerListen _ _ _ => true
  | _ => false
  end.

(** The call reads a file. *)
Definition reads_file (c : boot_call) : bool :=
  match c with
  | ReadFileSync _ => true
  | _ => false
  end.

(** The call creates the http server, or hands a server to socket.io. *)
Definition serves (c : boot_call) : bool :=
  match c with
  | HttpCreateServer | NewServer (Some _) => true
  | _ => false
  end.

(** A machine on which no library call throws. *)
Definition peaceful (h : host) : Prop := forall c, throws h c = false.

(** A machine whose env file adds nothing and whose files are empty. *)
Definition bare_host : host := Host (fun _ env => env) (fun _ => "") (fun _ => false).

(** An environment with a key and a certificate, and one for production
    on port 8080 without them. *)
Definition ssl_env : gmap string string :=
  <["SSL_KEY_PATH" := "key.pem"]> (<["SSL_CERT_PATH" := "cert.pem"]> ∅).

Definition production_env : gmap string string :=
  <["NODE_ENV" := "production"]> (<["PORT" := "8080"]> ∅).

(** * Properties *)

Lemma append_empty (s : string) : s +:+ "" = s.
Proof.
  induction s as [|a s IH]; [done|].
  change (String a (s +:+ "") = String a s). by rewrite IH.
Qed.

(** ** The backoff push sender *)

Lemma limited_run_bound w n bound : (limited_run w n bound <= bound)%nat.
Proof.
  revert n. induction bound as [|bound IH]; intros n; cbn; [lia|].
  destruct (rate_limited _); [|lia]. specialize (IH (S n)). lia.
Qed.

Lemma limited_run_prefix w n bound i :
  (i < limited_run w n bound)%nat -> rate_limited (push_reply_of w (n + i)) = true.
Proof.
  revert n i. induction bound as [|bound IH]; intros n i; cbn; [lia|].
  destruct (rate_limited (push_reply_of w n)) eqn:Hn; [|lia].
  destruct i as [|i]; intros Hi.
  - by rewrite Nat.add_0_r.
  - rewrite <- Nat.add_succ_comm. apply IH. lia.
Qed.

Lemma limited_run_stop w n bound :
  (limited_run w n bound < bound)%nat ->
  rate_limited (push_reply_of w (n + limited_run w n bound)) = false.
Proof.
  revert n. induction bound as [|bound IH]; intros n; cbn; [lia|].
  destruct (rate_limited (push_reply_of w n)) eqn:Hn; intros Hlt.
  - rewrite <- Nat.add_succ_comm. apply IH. lia.
  - by rewrite Nat.add_0_r.
Qed.

Lemma limited_run_full w n bound :
  (forall i, (i < bound)%nat -> rate_limited (push_reply_of w (n + i)) = true) ->
  limited_run w n bound = bound.
Proof.
  revert n. induction bound as [|bound IH]; intros n Hall; cbn; [done|].
  rewrite <- (Nat.add_0_r n) at 1. rewrite Hall by lia.
  f_equal. apply IH. intros i Hi.
  rewrite Nat.add_succ_comm. apply Hall. lia.
Qed.

Section Sender.

Variable isExpoPushToken : value -> bool.

(** One turn of the loop, as a run. *)
Lemma attempts_step (left : nat) msg token (s : string) (attempt delay : Z) w n reg :
  to_string token = Some s ->
  run (attempts (S left) msg token attempt delay) w n reg =
  match push_reply_of w n with
  | PushResolved _ =>
      RunOf [EPush [msg]; EConsole Log ("[push] Sent to " +:+ s)] reg (Returned tt)
  | PushRejected err =>
      if is_429 (opt_member err "statusCode") && (attempt <? 4) then
        let r := run (attempts left msg token (attempt + 1) (delay * 2)) w (S n) reg in
        RunOf (EPush [msg]
                 :: EConsole Warn ("[push] Rate limited sending to " +:+ s +:+
                                   ". retrying in " +:+ pretty delay +:+ "ms")
                 :: ETimeout delay :: trace r)
              (final r) (outcome r)
      else
        RunOf [EPush [msg]; EConsole Error ("[push] Failed to send to " +:+ s)]
              reg (Returned tt)
  end.
Proof.
  intros Hs. cbn -[Z.ltb Z.add Z.mul pretty].
  destruct (push_reply_of w n) as [tickets|err];
    cbn -[Z.ltb Z.add Z.mul pretty].
  - rewrite Hs. cbn. by rewrite append_empty.
  - destruct (is_429 (opt_member err "statusCode") && (attempt <? 4));
      cbn -[Z.ltb Z.add Z.mul pretty]; rewrite Hs;
      cbn -[Z.ltb Z.add Z.mul pretty]; rewrite !append_empty; [|done].
    by destruct (run _ w (S n) reg).
Qed.

(** The loop entered at attempt [4 - left]: it calls the API once more
    than the number of rate limits it meets in its first [left] turns. *)
Lemma attempts_run (left : nat) msg token (s : string) (delay : Z) w n reg :
  to_string token = Some s ->
  (left <= 4)%nat ->
  let r := run (attempts (S left) msg token (4 - Z.of_nat left) delay) w n reg in
  let k := limited_run w n left in
  outcome r = Returned tt /\ final r = reg /\
  batches (trace r) = replicate (S k) [msg] /\
  timeouts (trace r) = doubling delay k /\
  last (trace r) = Some (report s (push_reply_of w (n + k))).
Proof.
  intros Hs. revert delay n. induction left as [|left IH]; intros delay n Hle;
    cbn zeta; rewrite (attempts_step _ _ _ s _ _ _ _ _ Hs); cbn [limited_run rate_limited].
  - rewrite Nat.add_0_r.
    destruct (push_reply_of w n) as [tickets|err]; [done|].
    by rewrite andb_false_r.
  - destruct (push_reply_of w n) as [tickets|err] eqn:Hreply.
    { rewrite Nat.add_0_r, Hreply. done. }
    assert ((4 - Z.of_nat (S left) <? 4) = true) as -> by (apply Z.ltb_lt; lia).
    rewrite andb_true_r. cbn [rate_limited].
    destruct (is_429 (opt_member err "statusCode")) eqn:H429.
    + replace (4 - Z.of_nat (S left) + 1) with (4 - Z.of_nat left) by lia.
      destruct (IH (delay * 2) (S n)) as (Ho & Hf & Hb & Ht & Hl); [lia|].
      cbn [trace final outcome batches timeouts doubling].
      rewrite Ho, Hf, Hb, Ht. repeat split; try done.
      rewrite <- Nat.add_succ_comm, <- Hl.
      by rewrite !last_cons_cons.
    + rewrite Nat.add_0_r, Hreply. done.
Qed.

(** C8.  An address that fails the token-format check is not delivered
    to: [sendPushWithRetry] writes one warning to the console, makes no
    call to the push API, leaves the registry alone and returns normally.
    (The address is taken to be printable, as every string is.) *)
Theorem sendPushWithRetry_invalid_address address (text : string) body w n reg :
  isExpoPushToken address = false ->
  to_string address = Some text ->
  let r := run (sendPushWithRetry isExpoPushToken address body) w n reg in
  r = RunOf [EConsole Warn ("[push] Invalid Expo push token: " +:+ text)]
            reg (Returned tt)
  /\ batches (trace r) = [].
Proof.
  intros Hbad Htext. unfold sendPushWithRetry. rewrite Hbad. cbn.
  rewrite Htext. cbn. by rewrite append_empty.
Qed.

(** C2.  For an address that passes the token-format check, let [k] be
    the number of rate-limit replies (status 429) met in a row from the
    first call on, counted up to 4.  [sendPushWithRetry] then calls the
    push API exactly [k + 1] times (so at most 5 times), each time with the
    one-message batch for this address; it waits 1000, 2000, ... ms ([k]
    doubling delays) between the calls; it stops at the first reply that is
    not a rate limit, or at the fifth reply whatever it is, reports that
    reply on the console, and returns without raising.  In particular, four
    rate limits followed by a success give 5 calls with delays 1000, 2000,
    4000, 8000 and a success report, and a first reply that is not a rate
    limit gives exactly 1 call and no delay.  (The address is taken to be
    printable, as every string is.) *)
Theorem sendPushWithRetry_backoff address (text : string) body w reg :
  isExpoPushToken address = true ->
  to_string address = Some text ->
  let r := run (sendPushWithRetry isExpoPushToken address body) w 0 reg in
  let k := limited_run w 0 4 in
  (outcome r = Returned tt /\ final r = reg)
  /\ (batches (trace r) = replicate (S k) [Message address "New message" body]
      /\ (length (batches (trace r)) <= 5)%nat)
  /\ ((forall i, (i < k)%nat -> rate_limited (push_reply_of w i) = true)
      /\ (k < 4 -> rate_limited (push_reply_of w k) = false)%nat
      /\ timeouts (trace r) = doubling 1000 k
      /\ last (trace r) = Some (report text (push_reply_of w k)))
  /\ ((forall i, (i < 4)%nat -> rate_limited (push_reply_of w i) = true) ->
      (exists tickets, push_reply_of w 4 = PushResolved tickets) ->
      length (batches (trace r)) = 5%nat
      /\ timeouts (trace r) = [1000; 2000; 4000; 8000]
      /\ last (trace r) = Some (EConsole Log ("[push] Sent to " +:+ text)))
  /\ (rate_limited (push_reply_of w 0) = false ->
      length (batches (trace r)) = 1%nat /\ timeouts (trace r) = []).
Proof.
  intros Hok Htext r k. subst r. unfold sendPushWithRetry. rewrite Hok. cbn [negb].
  destruct (attempts_run 4 (Message address "New message" body)
              address text 1000 w 0 reg Htext) as (Ho & Hf & Hb & Ht & Hl); [lia|].
  change (4 - Z.of_nat 4) with 0 in *. cbn zeta in *. fold k in Hb, Ht, Hl.
  pose proof (limited_run_bound w 0 4) as Hk. fold k in Hk.
  rewrite Hb, Ht, Hl, length_replicate.
  split; [done|]. split; [split; [done | lia]|]. split; [|split].
  - split; [|split; [|done]].
    + intros i Hi. apply (limited_run_prefix w 0 4 i Hi).
    + intros Hlt. apply (limited_run_stop w 0 4 Hlt).
  - intros Hall [tickets Hlast].
    assert (k = 4%nat) as Hk4 by (apply limited_run_full; exact Hall).
    rewrite Hk4. cbn [Nat.add]. rewrite Hlast. done.
  - intros Hfirst. assert (k = 0%nat) as Hk0.
    { unfold k. cbn [limited_run]. by rewrite Hfirst. }
    by rewrite Hk0.
Qed.

End Sender.

Lemma sendPushWithRetry_invalid_address_witness :
  bracketed_token (VStr "not-a-token") = false /\
  batches (trace (run (sendPushWithRetry bracketed_token (VStr "not-a-token") (VStr "hi"))
                      limited_four_times 0 ∅)) = [].
Proof.
  split; [reflexivity|].
  apply (sendPushWithRetry_invalid_address bracketed_token (VStr "not-a-token")
           "not-a-token" (VStr "hi") limited_four_times 0 ∅); reflexivity.
Defined.

Lemma sendPushWithRetry_backoff_witness :
  bracketed_token (VStr "ExponentPushToken[abc]") = true /\
  timeouts (trace (run (sendPushWithRetry bracketed_token
                          (VStr "ExponentPushToken[abc]") (VStr "hi"))
                       limited_four_times 0 ∅)) = [1000; 2000; 4000; 8000].
Proof.
  split; [reflexivity|].
  destruct (sendPushWithRetry_backoff bracketed_token (VStr "ExponentPushToken[abc]")
              "ExponentPushToken[abc]" (VStr "hi") limited_four_times ∅ eq_refl eq_refl)
    as (_ & _ & _ & Hfour & _).
  apply Hfour.
  - intros i Hi. do 4 (destruct i as [|i]; [reflexivity|]). lia.
  - eexists. reflexivity.
Defined.

(** A push API that answers 500 at once is called exactly once. *)
Example one_call_when_the_api_fails :
  batches (trace (run (sendPushWithRetry bracketed_token
                         (VStr "ExponentPushToken[abc]") (VStr "hi"))
                      failing_at_once 0 ∅))
  = [[Message (VStr "ExponentPushToken[abc]") "New message" (VStr "hi")]].
Proof. reflexivity. Qed.

(** ** Composition of runs *)

Lemma run_bind {A B : Type} (p : prog A) (f : A -> prog B) w n reg :
  run (bind p f) w n reg =
  match outcome (run p w n reg) with
  | Returned a =>
      let r' := run (f a) w (n + length (batches (trace (run p w n reg))))%nat
                    (final (run p w n reg)) in
      RunOf (trace (run p w n reg) ++ trace r') (final r') (outcome r')
  | Raised e => RunOf (trace (run p w n reg)) (final (run p w n reg)) (Raised e)
  end.
Proof.
  revert n reg.
  induction p as [a|e|l text k IH|key k IH|key c k IH|key k IH|room k IH
                 |room ev payload k IH|url k IH|batch k IH|ms k IH];
    intros n reg; cbn [bind run].
  - cbn. rewrite Nat.add_0_r. by destruct (run (f a) w n reg).
  - done.
  - rewrite IH. cbn. by destruct (outcome (run k w n reg)).
  - rewrite IH. cbn. by destruct (outcome (run (k _) w n reg)).
  - rewrite IH. cbn. by destruct (outcome (run k w n _)).
  - rewrite IH. cbn. by destruct (outcome (run k w n _)).
  - rewrite IH. cbn. by destruct (outcome (run k w n _)).
  - rewrite IH. cbn. by destruct (outcome (run k w n _)).
  - rewrite IH. cbn. by destruct (outcome (run (k _) w n _)).
  - rewrite IH. cbn. rewrite Nat.add_succ_r.
    by destruct (outcome (run (k _) w (S n) _)).
  - rewrite IH. cbn. by destruct (outcome (run k w n _)).
Qed.

(** ** The token resolver *)

Lemma mapM_member_records name (records : list value) :
  Forall (fun t => nullish t = false) records ->
  mapM (fun t => member t name) records = Some (map (fun t => opt_member t name) records).
Proof.
  induction 1 as [|t records Ht _ IH]; [done|].
  cbn. rewrite IH. unfold opt_member. by destruct t.
Qed.

Lemma tokens_of_records data (records : list value) :
  member data "items" = Some (VArr records) ->
  Forall (fun t => nullish t = false) records ->
  tokens_of data = Some (List.filter truthy (map address_of records)).
Proof.
  intros Hitems Hrecords. unfold tokens_of. rewrite Hitems. cbn.
  by rewrite (mapM_member_records "expoPushToken" records Hrecords).
Qed.

Lemma tokens_of_no_items data items :
  member data "items" = Some items -> nullish items = true -> tokens_of data = Some [].
Proof. intros Hitems Hnull. unfold tokens_of. rewrite Hitems. cbn. by rewrite Hnull. Qed.

Lemma tokens_of_malformed data : tokens_of data = None <-> malformed data.
Proof.
  unfold tokens_of, malformed. split.
  - destruct (member data "items") as [items|] eqn:Hitems; cbn.
    + intros Hnone. right. exists items.
      destruct (nullish items) eqn:Hnull; [done|].
      split; [done|]. split; [done|].
      destruct items; try done.
      destruct (mapM _ items) eqn:Hmap; [done|].
      apply mapM_None_1 in Hmap.
      eapply Exists_impl; [exact Hmap|].
      intros t Ht. by destruct t.
    + intros _. left. by destruct data.
  - intros [Hnull|(items & Hitems & Hnull & Hshape)].
    + by destruct data.
    + rewrite Hitems. cbn. rewrite Hnull.
      destruct items; try done.
      rewrite (mapM_None_2 (fun t => member t "expoPushToken") items); [done|].
      eapply Exists_impl; [exact Hshape|].
      intros t Ht. by destruct t.
Qed.

Section Resolver.

Variable isExpoPushToken : value -> bool.
Variable socket_url : option string.

Lemma getPushTokens_run userId (s : string) w n reg :
  to_string userId = Some s ->
  run (getPushTokens socket_url userId) w n reg =
  let url := token_url socket_url s in
  let failed := EConsole Error ("[push] Error fetching tokens for user " +:+ s +:+ ":") in
  match fetch_reply_of w url with
  | FetchRejected _ => RunOf [EFetch url; failed] reg (Returned [])
  | FetchResolved res =>
      if res_ok res then
        match res_json res with
        | None => RunOf [EFetch url; failed] reg (Returned [])
        | Some data =>
            match tokens_of data with
            | None => RunOf [EFetch url; failed] reg (Returned [])
            | Some tokens => RunOf [EFetch url] reg (Returned tokens)
            end
        end
      else
        RunOf [EFetch url;
               EConsole Error ("[push] Failed to fetch tokens for user " +:+ s +:+
                               ": status " +:+ pretty (res_status res))]
              reg (Returned [])
  end.
Proof.
  intros Hs. unfold getPushTokens, token_url. rewrite Hs.
  cbn -[pretty tokens_of baseUrl]. rewrite !append_empty.
  destruct (fetch_reply_of w _) as [reason|[ok status [data|]]];
    cbn -[pretty tokens_of baseUrl]; rewrite ?append_empty; try done.
  - destruct ok; cbn -[pretty tokens_of baseUrl]; rewrite ?append_empty; [|done].
    destruct (tokens_of data); cbn; rewrite ?append_empty; done.
  - destruct ok; cbn -[pretty tokens_of baseUrl]; rewrite ?append_empty; done.
Qed.

Lemma getPushTokens_returns userId (s : string) w n reg :
  to_string userId = Some s ->
  let r := run (getPushTokens socket_url userId) w n reg in
  (exists tokens, outcome r = Returned tokens) /\ final r = reg /\
  batches (trace r) = [] /\ emitted (trace r) = [] /\
  fetched (trace r) = [token_url socket_url s] /\
  Forall (fun e => touches_registry e = false) (trace r).
Proof.
  intros Hs. cbn zeta. rewrite (getPushTokens_run userId s w n reg Hs). cbn zeta.
  destruct (fetch_reply_of w _) as [reason|[ok status [data|]]]; cbn [res_ok res_json].
  - cbn. repeat split; eauto.
  - destruct ok; [destruct (tokens_of data)|]; cbn; repeat split; eauto.
  - destruct ok; cbn; repeat split; eauto.
Qed.

(** C6.  For a user id that prints as a string, [getPushTokens] never
    raises: it returns a list, leaves the registry alone and calls nothing
    but the token directory.  The list is empty when the request is rejected
    (network error), when the status is not a success, when the body is not
    JSON and when the JSON is not of the expected shape; a body without
    [items] gives the empty list too; and a body whose [items] is an array of
    records gives the push addresses of the records that have a truthy one,
    the other records being left out. *)
Theorem getPushTokens_absorbs_failures userId (s : string) w n reg :
  to_string userId = Some s ->
  let r := run (getPushTokens socket_url userId) w n reg in
  let reply := fetch_reply_of w (token_url socket_url s) in
  ((exists tokens, outcome r = Returned tokens) /\ final r = reg /\
   batches (trace r) = [] /\ emitted (trace r) = [])
  /\ (forall reason, reply = FetchRejected reason -> outcome r = Returned [])
  /\ (forall res, reply = FetchResolved res -> res_ok res = false ->
      outcome r = Returned [])
  /\ (forall res, reply = FetchResolved res -> res_ok res = true ->
      (res_json res = None \/ exists data, res_json res = Some data /\ malformed data) ->
      outcome r = Returned [])
  /\ (forall res data items, reply = FetchResolved res -> res_ok res = true ->
      res_json res = Some data -> member data "items" = Some items ->
      nullish items = true -> outcome r = Returned [])
  /\ (forall records, directory_lists w (token_url socket_url s) records ->
      outcome r = Returned (List.filter truthy (map address_of records))).
Proof.
  intros Hs r reply.
  destruct (getPushTokens_returns userId s w n reg Hs) as (Hret & Hfinal & Hb & He & _).
  split; [done|]. subst r reply.
  rewrite (getPushTokens_run userId s w n reg Hs). cbn zeta.
  repeat split.
  - intros reason ->. done.
  - intros res -> ->. done.
  - intros res -> -> [-> | (data & -> & Hbad)]; [done|].
    apply tokens_of_malformed in Hbad. by rewrite Hbad.
  - intros res data items -> -> -> Hitems Hnull.
    by rewrite (tokens_of_no_items data items Hitems Hnull).
  - intros records (res & data & -> & -> & -> & Hitems & Hrecords).
    by rewrite (tokens_of_records data records Hitems Hrecords).
Qed.

(** The run of [sendDirectMessage] on a payload whose recipient is truthy. *)
Lemma sendDirectMessage_run payload rid sid mc (key s1 s3 : string) w n reg :
  member payload "recipientId" = Some rid ->
  member payload "senderId" = Some sid ->
  member payload "messageContent" = Some mc ->
  truthy rid = true ->
  to_string sid = Some s1 -> to_string rid = Some key -> to_string mc = Some s3 ->
  run (sendDirectMessage isExpoPushToken socket_url payload) w n reg =
  let line := EConsole Log ("[sendDirectMessage] " +:+ s1 +:+ " → " +:+ key +:+ ": " +:+ s3) in
  let emit := EEmit ("user:" +:+ key) "newDirectMessage" payload in
  let read := EActiveGet key (reg_get key reg) in
  if isOnline key reg then
    RunOf [line; emit; read;
           EConsole Log ("[sendDirectMessage] recipient " +:+ key +:+ " has " +:+
                         cell_to_string (active_of key reg) +:+
                         " active socket(s); skipping push")]
          reg (Returned [])
  else
    let g := run (getPushTokens socket_url rid) w n reg in
    RunOf (line :: emit :: read :: trace g) reg
          (match outcome g with
           | Returned tokens =>
               Returned (map (fun token => sendPushWithRetry isExpoPushToken token mc) tokens)
           | Raised e => Raised e
           end).
Proof.
  intros Hrid Hsid Hmc Htruthy Hs1 Hkey Hs3.
  unfold sendDirectMessage. rewrite Hrid, Hsid, Hmc.
  cbn -[getPushTokens cell_to_string]. rewrite Hs1, Hkey, Hs3, Htruthy.
  cbn -[getPushTokens cell_to_string]. rewrite !append_empty.
  unfold isOnline, active_of.
  destruct (cell_is0 (cell_or (reg_get key reg) (CNum 0))) eqn:Hzero;
    cbn -[getPushTokens cell_to_string]; [|done].
  unfold mbind, prog_bind. rewrite run_bind.
  destruct (getPushTokens_returns rid key w n reg Hkey) as ([tokens Ho] & Hf & _).
  rewrite Ho, Hf. cbn. by rewrite app_nil_r.
Qed.

End Resolver.

(** ** The router *)

Lemma scalar_prints (v : value) : scalar v = true -> is_Some (to_string v).
Proof. destruct v as [| |[|]| | | |]; cbn; intros H; try done; eauto. Qed.

Lemma falsy_prints (v : value) : truthy v = false -> is_Some (to_string v).
Proof. destruct v as [| |[|]| | | |]; cbn; intros H; try done; eauto. Qed.

Lemma member_opt (payload : value) (name : string) :
  nullish payload = false -> member payload name = Some (opt_member payload name).
Proof. unfold opt_member. by destruct payload. Qed.

Lemma filter_filter_map_length {A : Type} (f : A -> value) (P : value -> bool) (l : list A) :
  length (List.filter P (List.filter truthy (map f l)))
  = length (List.filter (fun t => truthy (f t) && P (f t)) l).
Proof.
  induction l as [|t l IH]; [done|]. cbn.
  destruct (truthy (f t)); cbn; [|done].
  destruct (P (f t)); cbn; by rewrite IH.
Qed.

Lemma addresses_of_replicate (k : nat) (a : value) :
  truthy a = true ->
  List.filter truthy (map address_of (replicate k (VObj [("expoPushToken", a)])))
  = replicate k a.
Proof.
  intros Ha. induction k as [|k IH]; [done|].
  cbn. rewrite Ha. cbn in IH. by rewrite IH.
Qed.

Section Router.

Variable isExpoPushToken : value -> bool.
Variable socket_url : option string.

(** Routing of a direct message.  A [sendDirectMessage] event whose payload
    carries a truthy [recipientId] (a non-empty string in particular)
    produces exactly one multicast: the payload itself, to the room
    [user:<recipientId>], under the name [newDirectMessage].  The handler
    leaves the registry as it is and calls no push API itself.  When the
    registry reports the recipient online, nothing is requested from the
    token directory and no push sender is started; when it reports the
    recipient offline, the directory is asked once and one
    [sendPushWithRetry] is started per address that [getPushTokens] returned,
    with the message content as body.  Online and offline are what the
    registry answers when the handler reads it ([isOnline], lines 121 and
    122): online when it holds a positive count for the recipient, offline
    when it holds no entry and the recipient's id is not the name of a
    property that [activeSockets] inherits.  (The fields that the handler
    prints are taken to be printable, which every string, number and boolean
    is.) *)
Theorem sendDirectMessage_routes payload rid sid mc (key s1 s3 : string) w n reg :
  member payload "recipientId" = Some rid ->
  member payload "senderId" = Some sid ->
  member payload "messageContent" = Some mc ->
  truthy rid = true ->
  to_string sid = Some s1 -> to_string rid = Some key -> to_string mc = Some s3 ->
  let r := run (sendDirectMessage isExpoPushToken socket_url payload) w n reg in
  emitted (trace r) = [("user:" +:+ key, "newDirectMessage", payload)]
  /\ final r = reg
  /\ batches (trace r) = []
  /\ (isOnline key reg = true -> outcome r = Returned [] /\ fetched (trace r) = [])
  /\ (isOnline key reg = false ->
      exists tokens,
        outcome (run (getPushTokens socket_url rid) w n reg) = Returned tokens
        /\ fetched (trace r) = [token_url socket_url key]
        /\ outcome r
           = Returned (map (fun token => sendPushWithRetry isExpoPushToken token mc) tokens))
  /\ (forall count, 0 < count -> reg !! key = Some (CNum count) -> isOnline key reg = true)
  /\ (object_prototype key = None -> reg !! key = None -> isOnline key reg = false).
Proof.
  intros Hrid Hsid Hmc Htruthy Hs1 Hkey Hs3 r. subst r.
  rewrite (sendDirectMessage_run isExpoPushToken socket_url payload rid sid mc key s1 s3
             w n reg Hrid Hsid Hmc Htruthy Hs1 Hkey Hs3).
  cbn zeta.
  destruct (getPushTokens_returns socket_url rid key w n reg Hkey)
    as ([tokens Ho] & Hf & Hb & He & Hu & _).
  assert (forall count, 0 < count -> reg !! key = Some (CNum count) ->
                        isOnline key reg = true) as Hentry.
  { intros count Hpos Hreg. unfold isOnline, active_of, reg_get. rewrite Hreg.
    unfold cell_or, cell_truthy, cell_is0.
    assert ((count =? 0) = false) as Hne by (apply Z.eqb_neq; lia).
    rewrite Hne. cbn [negb]. by rewrite Hne. }
  assert (object_prototype key = None -> reg !! key = None ->
          isOnline key reg = false) as Hnone.
  { intros Hord Hreg. unfold isOnline, active_of, reg_get. by rewrite Hreg, Hord. }
  destruct (isOnline key reg); cbn [trace final outcome emitted batches fetched].
  - repeat split; try done.
  - rewrite He, Hb, Hu, Ho. repeat split; try done.
    intros _. by exists tokens.
Qed.

(** C5.  In the run of [sendDirectMessage] on a payload with a truthy
    [recipientId], whatever the environment answers, the multicast comes
    right after the console line that opens the handler: nothing before it
    reads the registry, asks the token directory, calls the push API or
    starts a timer.  The read of the registry comes next, and everything of
    the push path comes after that read; the push senders themselves are
    only created when the handler has got the addresses. *)
Theorem sendDirectMessage_emits_first payload rid sid mc (key s1 s3 : string) w n reg :
  member payload "recipientId" = Some rid ->
  member payload "senderId" = Some sid ->
  member payload "messageContent" = Some mc ->
  truthy rid = true ->
  to_string sid = Some s1 -> to_string rid = Some key -> to_string mc = Some s3 ->
  let r := run (sendDirectMessage isExpoPushToken socket_url payload) w n reg in
  exists rest,
    trace r
    = EConsole Log ("[sendDirectMessage] " +:+ s1 +:+ " → " +:+ key +:+ ": " +:+ s3)
        :: EEmit ("user:" +:+ key) "newDirectMessage" payload
        :: EActiveGet key (reg_get key reg)
        :: rest
    /\ emitted rest = []
    /\ Forall (fun e => touches_registry e = false) rest
    /\ (isOnline key reg = true -> Forall (fun e => push_path e = false) rest)
    /\ batches rest = [] /\ timeouts rest = [].
Proof.
  intros Hrid Hsid Hmc Htruthy Hs1 Hkey Hs3 r. subst r.
  rewrite (sendDirectMessage_run isExpoPushToken socket_url payload rid sid mc key s1 s3
             w n reg Hrid Hsid Hmc Htruthy Hs1 Hkey Hs3).
  cbn zeta.
  destruct (isOnline key reg); cbn [trace].
  - eexists. split; [reflexivity|]. cbn. repeat split; try done.
    + by repeat constructor.
    + intros _. by repeat constructor.
  - exists (trace (run (getPushTokens socket_url rid) w n reg)).
    split; [reflexivity|].
    rewrite (getPushTokens_run socket_url rid key w n reg Hkey). cbn zeta.
    destruct (fetch_reply_of w _) as [reason|[ok status [data|]]]; cbn [res_ok res_json].
    + cbn. repeat split; try done. by repeat constructor.
    + destruct ok; [destruct (tokens_of data)|]; cbn; repeat split; try done;
        by repeat constructor.
    + destruct ok; cbn; repeat split; try done; by repeat constructor.
Qed.

(** C10.  For an offline recipient whose directory answer lists the token
    records [records], the addresses that [getPushTokens] returns are the
    truthy push-address fields of the records, in the order of the answer and
    as many times as they are listed; one [sendPushWithRetry] is started for
    each, in that order.  So for every test [P] on addresses, as many
    senders are started with an address passing [P] as there are records
    whose populated address passes [P]; and an answer that lists the same
    address [k] times starts [k] senders with that address. *)
Theorem push_fanout_keeps_order_and_multiplicity
    payload rid sid mc (key s1 s3 : string) w n reg (records : list value) :
  member payload "recipientId" = Some rid ->
  member payload "senderId" = Some sid ->
  member payload "messageContent" = Some mc ->
  truthy rid = true ->
  to_string sid = Some s1 -> to_string rid = Some key -> to_string mc = Some s3 ->
  isOnline key reg = false ->
  directory_lists w (token_url socket_url key) records ->
  let r := run (sendDirectMessage isExpoPushToken socket_url payload) w n reg in
  let addresses := List.filter truthy (map address_of records) in
  outcome (run (getPushTokens socket_url rid) w n reg) = Returned addresses
  /\ outcome r
     = Returned (map (fun token => sendPushWithRetry isExpoPushToken token mc) addresses)
  /\ (forall P : value -> bool,
        length (List.filter P addresses)
        = length (List.filter (fun t => truthy (address_of t) && P (address_of t)) records))
  /\ (forall (k : nat) (a : value),
        truthy a = true -> records = replicate k (VObj [("expoPushToken", a)]) ->
        outcome r = Returned (replicate k (sendPushWithRetry isExpoPushToken a mc))).
Proof.
  intros Hrid Hsid Hmc Htruthy Hs1 Hkey Hs3 Hoff Hdir r addresses.
  assert (outcome (run (getPushTokens socket_url rid) w n reg) = Returned addresses)
    as Htokens.
  { rewrite (getPushTokens_run socket_url rid key w n reg Hkey). cbn zeta.
    destruct Hdir as (res & data & -> & -> & -> & Hitems & Hrecords).
    by rewrite (tokens_of_records data records Hitems Hrecords). }
  assert (outcome r
          = Returned (map (fun token => sendPushWithRetry isExpoPushToken token mc)
                          addresses)) as Htasks.
  { subst r.
    rewrite (sendDirectMessage_run isExpoPushToken socket_url payload rid sid mc key s1 s3
               w n reg Hrid Hsid Hmc Htruthy Hs1 Hkey Hs3).
    cbn zeta. rewrite Hoff. cbn [outcome]. by rewrite Htokens. }
  repeat split; try done.
  - intros P. apply filter_filter_map_length.
  - intros k a Ha Hk. rewrite Htasks. subst addresses. rewrite Hk.
    rewrite (addresses_of_replicate k a Ha).
    f_equal. clear. induction k as [|k IH]; [done|]. cbn. by rewrite IH.
Qed.

(** C7.  An event whose payload is an object (or any value other than
    [undefined] and [null]) with a missing or falsy routing key is dropped:
    the handler writes its one console line (with [console.log], not as an
    error) and returns; it emits nothing, joins no room, does not touch the
    registry, calls neither the token directory nor the push API, and raises
    nothing.  The routing key is [recipientId] for [sendDirectMessage],
    [groupChatId] for [sendGroupMessage] and [joinGroup], [senderId] for
    [directMessageRead].  (The other fields that the console line prints are
    taken to be printable.) *)
Theorem missing_routing_key_dropped (sock : socket) payload w n reg :
  nullish payload = false ->
  (truthy (opt_member payload "recipientId") = false ->
   is_Some (to_string (opt_member payload "senderId")) ->
   is_Some (to_string (opt_member payload "messageContent")) ->
   exists line,
     run (sendDirectMessage isExpoPushToken socket_url payload) w n reg
     = RunOf [EConsole Log line] reg (Returned []))
  /\ (truthy (opt_member payload "groupChatId") = false ->
      is_Some (to_string (opt_member payload "messageContent")) ->
      exists line,
        run (sendGroupMessage payload) w n reg = RunOf [EConsole Log line] reg (Returned tt))
  /\ (truthy (opt_member payload "senderId") = false ->
      is_Some (to_string (opt_member payload "messageId")) ->
      is_Some (to_string (opt_member payload "readerId")) ->
      exists line,
        run (directMessageRead payload) w n reg = RunOf [EConsole Log line] reg (Returned tt))
  /\ (truthy (opt_member payload "groupChatId") = false ->
      exists line,
        run (joinGroup sock payload) w n reg = RunOf [EConsole Log line] reg (Returned tt)).
Proof.
  intros Hpayload. repeat split.
  - intros Hkey [s1 Hs1] [s3 Hs3].
    destruct (falsy_prints _ Hkey) as [s2 Hs2].
    unfold sendDirectMessage. rewrite !(member_opt payload _ Hpayload).
    cbn. rewrite Hs1, Hs2, Hs3, Hkey. cbn. eauto.
  - intros Hkey [s3 Hs3].
    destruct (falsy_prints _ Hkey) as [s2 Hs2].
    unfold sendGroupMessage. rewrite !(member_opt payload _ Hpayload).
    cbn. rewrite Hs2, Hs3, Hkey. cbn. eauto.
  - intros Hkey [s1 Hs1] [s3 Hs3].
    unfold directMessageRead. rewrite !(member_opt payload _ Hpayload).
    cbn. rewrite Hs1, Hs3, Hkey. cbn. eauto.
  - intros Hkey.
    destruct (falsy_prints _ Hkey) as [s2 Hs2].
    unfold joinGroup. rewrite !(member_opt payload _ Hpayload).
    cbn. rewrite Hs2, Hkey. cbn. eauto.
Qed.

(** C9.  Every handler starts by destructuring its payload, and
    destructuring raises a TypeError exactly for [undefined] and [null]: on
    such a payload each of the four handlers raises a TypeError before it
    does anything (no console line, no multicast, no change of the
    registry), where an object without the routing key is dropped
    silently. *)
Theorem absent_payload_raises (sock : socket) w n reg :
  (forall payload name, member payload name = None <-> nullish payload = true)
  /\ Forall (fun payload =>
               run (sendDirectMessage isExpoPushToken socket_url payload) w n reg
               = RunOf [] reg (Raised TypeError)
               /\ run (sendGroupMessage payload) w n reg = RunOf [] reg (Raised TypeError)
               /\ run (directMessageRead payload) w n reg = RunOf [] reg (Raised TypeError)
               /\ run (joinGroup sock payload) w n reg = RunOf [] reg (Raised TypeError))
            [VUndefined; VNull].
Proof.
  split.
  - intros payload name. by destruct payload.
  - repeat constructor.
Qed.

End Router.

(** ** The presence registry *)

Lemma markOnline_final key w n reg :
  final (run (markOnline key) w n reg)
  = reg_set key (cell_succ (cell_or (reg_get key reg) (CNum 0))) reg.
Proof. reflexivity. Qed.

Lemma markOffline_final key w n reg :
  final (run (markOffline key) w n reg)
  = let reg' := reg_set key (cell_pred (cell_or (reg_get key reg) (CNum 1))) reg in
    if cell_le0 (reg_get key reg') then reg_delete key reg' else reg'.
Proof. cbn. by destruct (cell_le0 _). Qed.

Lemma ordinary_not_proto key : object_prototype key = None -> String.eqb key "__proto__" = false.
Proof. unfold object_prototype. by destruct (String.eqb key "__proto__"). Qed.

Lemma reg_get_ordinary user lvl reg :
  object_prototype user = None -> reg !! user = entry_of lvl ->
  reg_get user reg = cell_of lvl.
Proof.
  intros Hord Hreg. unfold reg_get. rewrite Hreg.
  destruct lvl; cbn; [by rewrite Hord | done].
Qed.

Lemma succ_cell_of lvl : cell_succ (cell_or (cell_of lvl) (CNum 0)) = CNum (Z.of_nat (S lvl)).
Proof.
  destruct lvl as [|lvl]; [done|].
  unfold cell_of, cell_or, cell_truthy.
  assert ((Z.of_nat (S lvl) =? 0) = false) as -> by (apply Z.eqb_neq; lia).
  cbn [negb cell_succ]. f_equal. lia.
Qed.

Lemma pred_cell_of lvl :
  cell_pred (cell_or (cell_of lvl) (CNum 1)) = CNum (Z.of_nat (Nat.pred lvl)).
Proof.
  destruct lvl as [|lvl]; [done|].
  unfold cell_of, cell_or, cell_truthy.
  assert ((Z.of_nat (S lvl) =? 0) = false) as -> by (apply Z.eqb_neq; lia).
  cbn [negb cell_pred]. f_equal. lia.
Qed.

Lemma call_step_same user lvl c w n reg :
  object_prototype user = None ->
  reg !! user = entry_of lvl ->
  final (run (call_prog c) w n reg) !! user = entry_of (level_step user lvl c).
Proof.
  intros Hord Hreg. pose proof (ordinary_not_proto user Hord) as Hproto.
  unfold level_step.
  destruct c as [u|u]; cbn [call_prog marks_online marks_offline].
  - rewrite markOnline_final. unfold reg_set.
    destruct (String.eqb_spec u user) as [->|Hne].
    + rewrite Hproto, (reg_get_ordinary user lvl reg Hord Hreg), succ_cell_of.
      by rewrite lookup_insert_eq.
    + destruct (String.eqb u "__proto__"); [done|].
      by rewrite lookup_insert_ne.
  - rewrite markOffline_final. cbn zeta. unfold reg_set, reg_delete.
    destruct (String.eqb_spec u user) as [->|Hne].
    + rewrite Hproto, (reg_get_ordinary user lvl reg Hord Hreg), pred_cell_of.
      unfold reg_get. rewrite lookup_insert_eq. cbn [cell_le0].
      destruct (Nat.pred lvl) as [|m] eqn:Hpred.
      * change (Z.of_nat 0 <=? 0) with true. cbn iota. by rewrite lookup_delete_eq.
      * assert ((Z.of_nat (S m) <=? 0) = false) as -> by (apply Z.leb_gt; lia).
        by rewrite lookup_insert_eq.
    + destruct (String.eqb u "__proto__").
      * destruct (cell_le0 _); [|done]. by rewrite lookup_delete_ne.
      * destruct (cell_le0 _); [rewrite lookup_delete_ne by done|];
          by rewrite lookup_insert_ne.
Qed.

Lemma exec_level user calls : forall lvl reg,
  object_prototype user = None ->
  reg !! user = entry_of lvl ->
  exec calls reg !! user = entry_of (level_from user lvl calls).
Proof.
  induction calls as [|c calls IH]; intros lvl reg Hord Hreg; [done|].
  cbn. apply IH; [done|]. by apply call_step_same.
Qed.

Lemma level_lower_bound user calls : forall lvl,
  (ons user calls + lvl <= level_from user lvl calls + offs user calls)%nat.
Proof.
  unfold ons, offs, level_from.
  induction calls as [|c calls IH]; intros lvl; cbn; [lia|].
  unfold level_step at 2.
  destruct (marks_online user c) eqn:Hon, (marks_offline user c) eqn:Hoff; cbn.
  - by destruct c.
  - specialize (IH (S lvl)). lia.
  - specialize (IH (Nat.pred lvl)). lia.
  - apply IH.
Qed.

Lemma suffix_of_cons {A : Type} (tail l : list A) (x : A) :
  tail `suffix_of` x :: l -> tail = x :: l \/ tail `suffix_of` l.
Proof.
  intros [[|y k] Hk]; cbn in Hk.
  - by left.
  - right. exists k. congruence.
Qed.

Lemma level_suffix_bound user calls : forall lvl tail,
  tail `suffix_of` calls ->
  (ons user tail <= level_from user lvl calls + offs user tail)%nat.
Proof.
  induction calls as [|c calls IH]; intros lvl tail Htail.
  - apply suffix_nil_inv in Htail as ->. cbn. lia.
  - apply suffix_of_cons in Htail as [->|Htail].
    + pose proof (level_lower_bound user (c :: calls) lvl). lia.
    + cbn. by apply IH.
Qed.

Lemma level_zero user calls : forall lvl,
  (forall tail, tail `suffix_of` calls -> (ons user tail <= offs user tail)%nat) ->
  (lvl + ons user calls <= offs user calls)%nat ->
  level_from user lvl calls = 0%nat.
Proof.
  induction calls as [|c calls IH]; intros lvl Hsuf Hle.
  - cbn in *. lia.
  - assert (forall tail, tail `suffix_of` calls -> (ons user tail <= offs user tail)%nat)
      as Hsuf' by (intros tail Ht; apply Hsuf; by apply suffix_cons_r).
    pose proof (Hsuf' calls (reflexivity _)) as Hcalls.
    unfold level_from. cbn [fold_left]. apply IH; [done|].
    unfold ons, offs, level_step in *. cbn [List.filter] in Hle.
    destruct (marks_online user c) eqn:Hon, (marks_offline user c) eqn:Hoff;
      cbn [length] in Hle; try lia.
    by destruct c.
Qed.

Lemma level_exact user calls : forall lvl,
  (forall head, head `prefix_of` calls -> (offs user head <= lvl + ons user head)%nat) ->
  (level_from user lvl calls + offs user calls = lvl + ons user calls)%nat.
Proof.
  induction calls as [|c calls IH]; intros lvl Hpre; [cbn; lia|].
  pose proof (Hpre [c] (prefix_cons c [] calls (prefix_nil calls))) as Hfirst.
  assert (forall lvl',
            (forall head, offs user (c :: head) <= lvl + ons user (c :: head) ->
                          offs user head <= lvl' + ons user head)%nat ->
            (level_from user lvl' calls + offs user calls = lvl' + ons user calls)%nat)
    as Hnext.
  { intros lvl' Hstep. apply IH. intros head Hhead.
    apply Hstep, Hpre. by apply prefix_cons. }
  change (level_from user lvl (c :: calls))
    with (level_from user (level_step user lvl c) calls).
  unfold level_step, ons, offs in *. cbn [List.filter] in *.
  destruct (marks_online user c) eqn:Hon, (marks_offline user c) eqn:Hoff;
    cbn [length] in *.
  - by destruct c.
  - specialize (Hnext (S lvl)). rewrite <- Nat.add_succ_comm. apply Hnext.
    intros head. lia.
  - specialize (Hnext (Nat.pred lvl)).
    rewrite Nat.add_succ_r, Hnext; [lia|]. intros head. lia.
  - apply Hnext. intros head. lia.
Qed.

Lemma isOnline_entry user lvl reg :
  object_prototype user = None -> reg !! user = entry_of lvl ->
  isOnline user reg = negb (lvl =? 0)%nat.
Proof.
  intros Hord Hreg. unfold isOnline, active_of.
  rewrite (reg_get_ordinary user lvl reg Hord Hreg).
  destruct lvl as [|lvl]; [done|].
  unfold cell_of, cell_or, cell_truthy, cell_is0.
  assert ((Z.of_nat (S lvl) =? 0) = false) as Hpos by (apply Z.eqb_neq; lia).
  rewrite Hpos. cbn [negb]. by rewrite Hpos.
Qed.

Lemma level_from_app user lvl calls calls' :
  level_from user lvl (calls ++ calls')
  = level_from user (level_from user lvl calls) calls'.
Proof. apply fold_left_app. Qed.

Lemma level_from_cons user lvl c calls :
  level_from user lvl (c :: calls) = level_from user (level_step user lvl c) calls.
Proof. reflexivity. Qed.

Lemma level_from_online user (N : nat) : forall lvl,
  level_from user lvl (replicate N (MarkOnline user)) = (lvl + N)%nat.
Proof.
  induction N as [|N IH]; intros lvl; [cbn; lia|].
  cbn [replicate]. rewrite level_from_cons, IH.
  unfold level_step. cbn. rewrite String.eqb_refl. lia.
Qed.

Lemma level_from_offline user (M : nat) : forall lvl,
  level_from user lvl (replicate M (MarkOffline user)) = (lvl - M)%nat.
Proof.
  induction M as [|M IH]; intros lvl; [cbn; lia|].
  cbn [replicate]. rewrite level_from_cons, IH.
  unfold level_step. cbn. rewrite String.eqb_refl. lia.
Qed.

(** The two registry updates as operations of their own.  Let [user] be
    an id that is not the name of a property inherited from
    [Object.prototype], and let the registry start empty.  After any
    sequence of [MarkOnline] and [MarkOffline] calls (for this and other
    users), in any order, with N [MarkOnline user] and M [MarkOffline user]
    calls:
    - if N > M, [user] is online, in whatever order the calls came;
    - [user] is offline exactly when no suffix of the sequence has more
      [MarkOnline user] than [MarkOffline user] calls, and offline exactly
      when it has no entry;
    - if no prefix has more [MarkOffline user] than [MarkOnline user] calls
      (each disconnect follows its own connect, as in the handlers), the
      entry is exactly N - M, absent when N = M;
    - if the N [MarkOnline user] calls are followed by the M [MarkOffline
      user] calls, [user] is online iff N > M and has no entry when N <= M.
    A [MarkOffline] that finds no entry is clamped
    ([unmatched_offline_is_clamped]); the handlers never make such a call,
    since a socket's disconnect handler is registered after its
    increment. *)
Theorem presence_counts (user : string) (calls : list call) :
  object_prototype user = None ->
  let reg := exec calls ∅ in
  (offs user calls < ons user calls -> isOnline user reg = true)%nat
  /\ (((forall tail, tail `suffix_of` calls -> (ons user tail <= offs user tail)%nat) <->
       isOnline user reg = false)
      /\ (isOnline user reg = false <-> reg !! user = None))
  /\ ((forall head, head `prefix_of` calls -> (offs user head <= ons user head)%nat) ->
      isOnline user reg = negb (ons user calls =? offs user calls)%nat
      /\ reg !! user
         = if (ons user calls =? offs user calls)%nat then None
           else Some (CNum (Z.of_nat (ons user calls - offs user calls))))
  /\ (forall N M : nat,
        calls = replicate N (MarkOnline user) ++ replicate M (MarkOffline user) ->
        isOnline user reg = (M <? N)%nat /\ ((N <= M)%nat -> reg !! user = None)).
Proof.
  intros Hord reg.
  assert (reg !! user = entry_of (level_from user 0 calls)) as Hreg
    by (by apply exec_level).
  pose proof (isOnline_entry user _ reg Hord Hreg) as Honline.
  split; [|split; [split; [split|split]|split; [intros Hpre; split|intros N M Hcalls; split]]].
  - intros Hlt. rewrite Honline.
    pose proof (level_lower_bound user calls 0).
    destruct (level_from user 0 calls); [lia | done].
  - intros Hsuf. rewrite Honline, (level_zero user calls 0 Hsuf); [done|].
    specialize (Hsuf calls (reflexivity _)). lia.
  - rewrite Honline. intros Hoff tail Htail.
    pose proof (level_suffix_bound user calls 0 tail Htail).
    destruct (level_from user 0 calls); [lia | done].
  - rewrite Honline, Hreg. by destruct (level_from user 0 calls).
  - rewrite Honline, Hreg. by destruct (level_from user 0 calls).
  - rewrite Honline. pose proof (level_exact user calls 0 Hpre) as Hexact.
    destruct (Nat.eqb_spec (ons user calls) (offs user calls)) as [Heq|Hne];
      destruct (level_from user 0 calls); cbn; try done; lia.
  - rewrite Hreg. pose proof (level_exact user calls 0 Hpre) as Hexact.
    destruct (Nat.eqb_spec (ons user calls) (offs user calls)) as [Heq|Hne].
    + replace (level_from user 0 calls) with 0%nat by lia. done.
    + replace (level_from user 0 calls) with (ons user calls - offs user calls)%nat by lia.
      specialize (Hpre calls (reflexivity _)).
      destruct (ons user calls - offs user calls)%nat eqn:Hd; [lia|done].
  - rewrite Honline, Hcalls, level_from_app, level_from_online, level_from_offline.
    cbn [Nat.add]. destruct (Nat.ltb_spec M N), (N - M)%nat eqn:Hd; cbn; try done; lia.
  - intros Hle. rewrite Hreg, Hcalls, level_from_app, level_from_online, level_from_offline.
    cbn [Nat.add]. by replace (N - M)%nat with 0%nat by lia.
Qed.

(** The clamp of lines 103 to 106, on an order of calls that the handlers
    do not produce: a [MarkOffline] that finds no entry leaves none, so
    after [MarkOffline; MarkOnline] the user is online and has the entry
    1. *)
Lemma unmatched_offline_is_clamped :
  let calls := [MarkOffline "alice"; MarkOnline "alice"] in
  (ons "alice" calls <= offs "alice" calls)%nat
  /\ isOnline "alice" (exec calls ∅) = true
  /\ exec calls ∅ !! "alice" = Some (CNum 1).
Proof. cbn zeta. split; [cbn; lia|]. split; vm_compute; reflexivity. Qed.

Lemma presence_counts_witness :
  object_prototype "alice" = None
  /\ isOnline "alice"
       (exec (replicate 2 (MarkOnline "alice") ++ replicate 3 (MarkOffline "alice")) ∅)
     = false.
Proof.
  split; [reflexivity|].
  destruct (presence_counts "alice"
              (replicate 2 (MarkOnline "alice") ++ replicate 3 (MarkOffline "alice"))
              eq_refl) as (_ & _ & _ & Hthen).
  destruct (Hthen 2%nat 3%nat eq_refl) as [Honline _]. exact Honline.
Defined.

(** The handlers update the registry through [markOnline] and [markOffline]
    only, and only for a socket that identified itself. *)
Lemma connection_marks_online (sock : socket) (key : string) w n reg :
  truthy (handshake_userId sock) = true ->
  to_string (handshake_userId sock) = Some key ->
  final (run (connection sock) w n reg) = final (run (markOnline key) w n reg)
  /\ joined (trace (run (connection sock) w n reg)) = ["user:" +:+ key].
Proof.
  intros Htruthy Hkey. unfold connection. rewrite Htruthy.
  cbn -[cell_to_string]. rewrite Hkey. cbn -[cell_to_string].
  by rewrite append_empty.
Qed.

Lemma disconnect_marks_offline (sock : socket) (key : string) w n reg :
  truthy (handshake_userId sock) = true ->
  to_string (handshake_userId sock) = Some key ->
  final (run (disconnect sock) w n reg) = final (run (markOffline key) w n reg).
Proof.
  intros Htruthy Hkey. unfold disconnect. rewrite Htruthy.
  cbn -[cell_to_string]. rewrite Hkey. cbn -[cell_to_string].
  by destruct (cell_le0 _).
Qed.

Lemma anonymous_socket_leaves_registry (sock : socket) w n reg :
  truthy (handshake_userId sock) = false ->
  final (run (connection sock) w n reg) = reg
  /\ final (run (disconnect sock) w n reg) = reg.
Proof.
  intros Hfalsy. destruct (falsy_prints _ Hfalsy) as [s Hs].
  unfold connection, disconnect. rewrite Hfalsy. cbn. rewrite Hs. done.
Qed.

Lemma counts_positive_level reg key :
  counts_positive reg -> object_prototype key = None ->
  exists lvl, reg !! key = entry_of lvl.
Proof.
  intros Hreg Hord. destruct (reg !! key) as [c|] eqn:Hkey.
  - destruct (Hreg key c Hord Hkey) as (count & -> & Hpos).
    exists (Z.to_nat count). destruct (Z.to_nat count) eqn:Hn; [lia|].
    cbn [entry_of]. rewrite <- Hn. do 2 f_equal. lia.
  - by exists 0%nat.
Qed.

Lemma entry_of_positive lvl c : entry_of lvl = Some c -> exists count, c = CNum count /\ 0 < count.
Proof.
  destruct lvl as [|lvl]; [done|]. intros [= <-]. eexists. split; [done|lia].
Qed.

Lemma call_preserves_counts c w n reg :
  counts_positive reg -> counts_positive (final (run (call_prog c) w n reg)).
Proof.
  intros Hreg key cnew Hord Hnew.
  destruct (counts_positive_level reg key Hreg Hord) as [lvl Hlvl].
  rewrite (call_step_same key lvl c w n reg Hord Hlvl) in Hnew.
  by apply entry_of_positive in Hnew.
Qed.

(** For the ids that name no inherited property the invariant of C4 does
    hold: the empty registry satisfies it, [connection] and [disconnect]
    preserve it for every socket, and under it a user is reported online
    exactly when the registry has an entry for it. *)
Theorem ordinary_ids_keep_positive_counts (sock : socket) w n reg :
  counts_positive ∅
  /\ (counts_positive reg ->
      counts_positive (final (run (connection sock) w n reg))
      /\ counts_positive (final (run (disconnect sock) w n reg)))
  /\ (counts_positive reg ->
      forall key, object_prototype key = None ->
                  (isOnline key reg = true <-> is_Some (reg !! key))).
Proof.
  split; [|split].
  - intros key c _ Hkey. by rewrite lookup_empty in Hkey.
  - intros Hreg.
    destruct (truthy (handshake_userId sock)) eqn:Htruthy.
    + destruct (to_string (handshake_userId sock)) as [key|] eqn:Hkey.
      * destruct (connection_marks_online sock key w n reg Htruthy Hkey) as [-> _].
        rewrite (disconnect_marks_offline sock key w n reg Htruthy Hkey).
        split; [apply (call_preserves_counts (MarkOnline key)) |
                apply (call_preserves_counts (MarkOffline key))]; done.
      * unfold connection, disconnect. rewrite Htruthy. cbn. rewrite Hkey. cbn. done.
    + destruct (anonymous_socket_leaves_registry sock w n reg Htruthy) as [-> ->]. done.
  - intros Hreg key Hord.
    destruct (counts_positive_level reg key Hreg Hord) as [lvl Hlvl].
    rewrite (isOnline_entry key lvl reg Hord Hlvl), Hlvl.
    destruct lvl; cbn; split; intros H; try done; by inversion H.
Qed.

(** C4 at its failing input.  A client whose handshake gives the user id
    [constructor] meets the property that [activeSockets] inherits from
    [Object.prototype]: before any connection the registry has no entry for
    that id and yet reports it online; the connection stores a text (the
    source of the function [Object] followed by [1]) where the invariant
    wants a positive count; the disconnection turns it into NaN, which is
    not removed, so that the entry is present while the user is reported
    offline. *)
Theorem inherited_name_breaks_invariant :
  let sock := Socket "s1" (VStr "constructor") in
  let reg1 := final (run (connection sock) silent 0 ∅) in
  let reg2 := final (run (disconnect sock) silent 0 reg1) in
  ((∅ : registry) !! "constructor" = None /\ isOnline "constructor" ∅ = true)
  /\ reg1 !! "constructor" = Some (CText (BuiltinFunction "Object") 1)
  /\ (reg2 !! "constructor" = Some CNaN /\ isOnline "constructor" reg2 = false).
Proof. cbn zeta. repeat split; vm_compute; reflexivity. Qed.

(** ** The router and the registry *)

Lemma writes_nothing_bind {A B : Type} (p : prog A) (f : A -> prog B) :
  writes_nothing p -> (forall a, writes_nothing (f a)) -> writes_nothing (bind p f).
Proof. intros Hp Hf. induction p; cbn in *; auto; done. Qed.

Lemma writes_nothing_try_catch {A : Type} (p : prog A) (h : exn -> prog A) :
  writes_nothing p -> (forall e, writes_nothing (h e)) -> writes_nothing (try_catch p h).
Proof. intros Hp Hh. induction p; cbn in *; auto; done. Qed.

Lemma writes_nothing_lift {A : Type} (o : option A) : writes_nothing (lift o).
Proof. by destruct o. Qed.

Lemma writes_nothing_console l pieces : writes_nothing (console l pieces).
Proof. unfold console. by destruct (template pieces). Qed.

Lemma run_writes_nothing {A : Type} (p : prog A) w n reg :
  writes_nothing p ->
  final (run p w n reg) = reg /\ Forall (fun e => is_write e = false) (trace (run p w n reg)).
Proof.
  revert n reg.
  induction p as [a|e|l text k IH|key k IH|key c k IH|key k IH|room k IH
                 |room ev payload k IH|url k IH|batch k IH|ms k IH];
    intros n reg Hp; cbn in Hp |- *; try done.
  - destruct (IH n reg Hp) as [Hf Ht]. split; [done | by constructor].
  - destruct (IH (reg_get key reg) n reg (Hp _)) as [Hf Ht].
    split; [done | by constructor].
  - destruct (IH n reg Hp) as [Hf Ht]. split; [done | by constructor].
  - destruct (IH n reg Hp) as [Hf Ht]. split; [done | by constructor].
  - destruct (IH (fetch_reply_of w url) n reg (Hp _)) as [Hf Ht].
    split; [done | by constructor].
  - destruct (IH (push_reply_of w n) (S n) reg (Hp _)) as [Hf Ht].
    split; [done | by constructor].
  - destruct (IH n reg Hp) as [Hf Ht]. split; [done | by constructor].
Qed.

(** Discharges [writes_nothing] by following the structure of the program. *)
Ltac frame :=
  repeat first
    [ apply writes_nothing_lift
    | apply writes_nothing_console
    | apply writes_nothing_bind; [|intros ?]
    | apply writes_nothing_try_catch; [|intros ?]
    | match goal with
      | |- writes_nothing (if ?b then _ else _) => destruct b
      | |- writes_nothing (match ?x with _ => _ end) => destruct x
      end
    | exact I
    | progress cbn [writes_nothing mbind prog_bind mret prog_ret fetch send_push set_timeout
                    io_emit socket_join active_get]
    | intros ? ].

Section Frame.
Variable isExpoPushToken : value -> bool.
Variable socket_url : option string.

Lemma getPushTokens_writes_nothing userId : writes_nothing (getPushTokens socket_url userId).
Proof. unfold getPushTokens. frame. Qed.

Lemma sendPushWithRetry_writes_nothing token body :
  writes_nothing (sendPushWithRetry isExpoPushToken token body).
Proof. unfold sendPushWithRetry. frame. Qed.

Lemma sendDirectMessage_writes_nothing payload :
  writes_nothing (sendDirectMessage isExpoPushToken socket_url payload).
Proof. unfold sendDirectMessage. frame. Qed.

Lemma sendGroupMessage_writes_nothing payload : writes_nothing (sendGroupMessage payload).
Proof. unfold sendGroupMessage. frame. Qed.

Lemma directMessageRead_writes_nothing payload : writes_nothing (directMessageRead payload).
Proof. unfold directMessageRead. frame. Qed.

Lemma joinGroup_writes_nothing sock payload : writes_nothing (joinGroup sock payload).
Proof. unfold joinGroup. frame. Qed.

(** The router never changes the registry: whatever the payload and the
    environment, the four event handlers and the push senders leave
    [activeSockets] as they found it (they only read it, and only
    [sendDirectMessage] does). *)
Theorem router_leaves_registry (sock : socket) payload w n reg :
  final (run (sendDirectMessage isExpoPushToken socket_url payload) w n reg) = reg
  /\ final (run (sendGroupMessage payload) w n reg) = reg
  /\ final (run (directMessageRead payload) w n reg) = reg
  /\ final (run (joinGroup sock payload) w n reg) = reg
  /\ (forall token body,
        final (run (sendPushWithRetry isExpoPushToken token body) w n reg) = reg)
  /\ Forall (fun e => is_write e = false)
            (trace (run (sendDirectMessage isExpoPushToken socket_url payload) w n reg)).
Proof.
  repeat split; try intros token body.
  - apply run_writes_nothing, sendDirectMessage_writes_nothing.
  - apply run_writes_nothing, sendGroupMessage_writes_nothing.
  - apply run_writes_nothing, directMessageRead_writes_nothing.
  - apply run_writes_nothing, joinGroup_writes_nothing.
  - apply run_writes_nothing, sendPushWithRetry_writes_nothing.
  - apply run_writes_nothing, sendDirectMessage_writes_nothing.
Qed.

End Frame.

(** ** The sample scenario: A online, bob offline with two addresses *)

Lemma sample_directory_lists (user : string) :
  directory_lists (sample_directory user) (token_url None user) sample_records.
Proof.
  eexists _, _. cbn. rewrite String.eqb_refl.
  repeat split; try reflexivity. repeat constructor.
Qed.

Lemma getPushTokens_absorbs_failures_witness :
  to_string (VStr "bob") = Some "bob"
  /\ outcome (run (getPushTokens None (VStr "bob")) (sample_directory "bob") 0 only_A_online)
     = Returned [VStr "ExponentPushToken[one]"; VStr "ExponentPushToken[two]"].
Proof.
  split; [reflexivity|].
  destruct (getPushTokens_absorbs_failures None (VStr "bob") "bob" (sample_directory "bob") 0
              only_A_online eq_refl) as (_ & _ & _ & _ & _ & Hlists).
  exact (Hlists sample_records (sample_directory_lists "bob")).
Defined.

Lemma sendDirectMessage_routes_witness :
  isOnline "bob" only_A_online = false
  /\ emitted (trace (run (sendDirectMessage bracketed_token None (hi_to "bob"))
                         (sample_directory "bob") 0 only_A_online))
     = [("user:bob", "newDirectMessage", (hi_to "bob"))].
Proof.
  split; [reflexivity|].
  destruct (sendDirectMessage_routes bracketed_token None (hi_to "bob")
              (VStr "bob") (VStr "A") (VStr "hi") "bob" "A" "hi"
              (sample_directory "bob") 0 only_A_online
              eq_refl eq_refl eq_refl eq_refl eq_refl eq_refl eq_refl)
    as (Hemit & _).
  exact Hemit.
Defined.

Lemma sendDirectMessage_emits_first_witness :
  truthy (VStr "bob") = true
  /\ exists rest,
       trace (run (sendDirectMessage bracketed_token None (hi_to "bob"))
                  (sample_directory "bob") 0 only_A_online)
       = EConsole Log "[sendDirectMessage] A → bob: hi"
           :: EEmit "user:bob" "newDirectMessage" (hi_to "bob")
           :: EActiveGet "bob" CUndefined
           :: rest.
Proof.
  split; [reflexivity|].
  destruct (sendDirectMessage_emits_first bracketed_token None (hi_to "bob")
              (VStr "bob") (VStr "A") (VStr "hi") "bob" "A" "hi"
              (sample_directory "bob") 0 only_A_online
              eq_refl eq_refl eq_refl eq_refl eq_refl eq_refl eq_refl)
    as (rest & Htrace & _).
  exists rest. exact Htrace.
Defined.

Lemma push_fanout_keeps_order_and_multiplicity_witness :
  isOnline "bob" only_A_online = false
  /\ outcome (run (sendDirectMessage bracketed_token None (hi_to "bob"))
                  (sample_directory "bob") 0 only_A_online)
     = Returned [sendPushWithRetry bracketed_token (VStr "ExponentPushToken[one]") (VStr "hi");
                 sendPushWithRetry bracketed_token (VStr "ExponentPushToken[two]") (VStr "hi")].
Proof.
  split; [reflexivity|].
  destruct (push_fanout_keeps_order_and_multiplicity bracketed_token None (hi_to "bob")
              (VStr "bob") (VStr "A") (VStr "hi") "bob" "A" "hi"
              (sample_directory "bob") 0 only_A_online sample_records
              eq_refl eq_refl eq_refl eq_refl eq_refl eq_refl eq_refl eq_refl
              (sample_directory_lists "bob"))
    as (_ & Htasks & _).
  exact Htasks.
Defined.

Lemma missing_routing_key_dropped_witness :
  nullish unaddressed = false
  /\ exists line,
       run (sendDirectMessage bracketed_token None unaddressed)
           (sample_directory "bob") 0 only_A_online
       = RunOf [EConsole Log line] only_A_online (Returned []).
Proof.
  split; [reflexivity|].
  destruct (missing_routing_key_dropped bracketed_token None (Socket "s1" VUndefined)
              unaddressed (sample_directory "bob") 0 only_A_online eq_refl)
    as (Hdirect & _).
  apply Hdirect; [reflexivity | eexists; reflexivity | eexists; reflexivity].
Defined.

(** ** The same scenario for a recipient called constructor *)

(** C1 at its failing input.  Nobody is connected and the directory lists
    two addresses for the user [constructor].  A direct message to that user
    is multicast as it should, but the handler reads the inherited function
    [Object] where it expects the recipient's count: it reports the
    recipient as having active sockets, does not ask the directory and
    starts no push sender. *)
Theorem inherited_name_skips_push :
  let r := run (sendDirectMessage bracketed_token None (hi_to "constructor"))
               (sample_directory "constructor") 0 ∅ in
  ((∅ : registry) !! "constructor" = None
   /\ directory_lists (sample_directory "constructor")
                      (token_url None "constructor") sample_records)
  /\ emitted (trace r) = [("user:constructor", "newDirectMessage", hi_to "constructor")]
  /\ fetched (trace r) = []
  /\ outcome r = Returned []
  /\ last (trace r)
     = Some (EConsole Log
               ("[sendDirectMessage] recipient constructor has " +:+
                "function Object() { [native code] } active socket(s); skipping push")).
Proof.
  cbn zeta. split; [split; [done | apply sample_directory_lists]|].
  repeat split; vm_compute; reflexivity.
Qed.

(** ** The senders of the sample scenario, and a payload that does not print *)

(** In the scenario of A and bob, each of the two senders calls the push API
    once, with its own address and the body [hi]. *)
Example sample_scenario_pushes :
  match outcome (run (sendDirectMessage bracketed_token None (hi_to "bob"))
                     (sample_directory "bob") 0 only_A_online) with
  | Returned senders =>
      map (fun sender => batches (trace (run sender (sample_directory "bob") 0 only_A_online)))
          senders
      = [[[Message (VStr "ExponentPushToken[one]") "New message" (VStr "hi")]];
         [[Message (VStr "ExponentPushToken[two]") "New message" (VStr "hi")]]]
  | Raised _ => False
  end.
Proof. vm_compute. reflexivity. Qed.

(** Why the printed fields are taken to be printable: a [senderId] that is
    an object with an own member called [toString] makes the opening console
    line of the handler raise a TypeError, before the multicast. *)
Example unprintable_sender_raises :
  run (sendDirectMessage bracketed_token None
         (VObj [("senderId", VObj [("toString", VNum 1)]); ("recipientId", VStr "bob")]))
      (sample_directory "bob") 0 only_A_online
  = RunOf [] only_A_online (Raised TypeError).
Proof. reflexivity. Qed.

(** ** Sockets and the registry *)

Lemma unprintable_socket_leaves_registry (sock : socket) w n reg :
  to_string (handshake_userId sock) = None ->
  final (run (connection sock) w n reg) = reg
  /\ final (run (disconnect sock) w n reg) = reg.
Proof.
  intros Hnone. unfold connection, disconnect. cbn. rewrite Hnone. cbn.
  destruct (truthy (handshake_userId sock)); cbn; rewrite ?Hnone; done.
Qed.

(** What one handler does to the entry of an ordinary user. *)
Lemma handler_step key lvl (e : session_event) w n reg :
  object_prototype key = None ->
  reg !! key = entry_of lvl ->
  final (run (handler_of e) w n reg) !! key
  = entry_of (match e with
              | Connects sock => if identifies key sock then S lvl else lvl
              | Disconnects sock => if identifies key sock then Nat.pred lvl else lvl
              end).
Proof.
  intros Hord Hreg.
  assert (forall sock, truthy (handshake_userId sock) = false \/
                       to_string (handshake_userId sock) = None ->
                       identifies key sock = false) as Hno.
  { intros sock [H|H]; unfold identifies; rewrite H; [done | apply andb_false_r]. }
  destruct e as [sock|sock]; cbn [handler_of].
  - destruct (truthy (handshake_userId sock)) eqn:Htruthy.
    + destruct (to_string (handshake_userId sock)) as [k|] eqn:Hk.
      * destruct (connection_marks_online sock k w n reg Htruthy Hk) as [-> _].
        etrans; [exact (call_step_same key lvl (MarkOnline k) w n reg Hord Hreg)|].
        unfold level_step, identifies. rewrite Htruthy, Hk. done.
      * destruct (unprintable_socket_leaves_registry sock w n reg Hk) as [-> _].
        rewrite Hno by auto. done.
    + destruct (anonymous_socket_leaves_registry sock w n reg Htruthy) as [-> _].
      rewrite Hno by auto. done.
  - destruct (truthy (handshake_userId sock)) eqn:Htruthy.
    + destruct (to_string (handshake_userId sock)) as [k|] eqn:Hk.
      * rewrite (disconnect_marks_offline sock k w n reg Htruthy Hk).
        etrans; [exact (call_step_same key lvl (MarkOffline k) w n reg Hord Hreg)|].
        unfold level_step, identifies. rewrite Htruthy, Hk. done.
      * destruct (unprintable_socket_leaves_registry sock w n reg Hk) as [_ ->].
        rewrite Hno by auto. done.
    + destruct (anonymous_socket_leaves_registry sock w n reg Htruthy) as [_ ->].
      rewrite Hno by auto. done.
Qed.

Lemma sockets_of_middle key before sock later :
  sockets_of key (before ++ sock :: later)
  = ((if identifies key sock then 1 else 0) + sockets_of key (before ++ later))%nat.
Proof.
  unfold sockets_of. rewrite !List.filter_app, !length_app. cbn.
  destruct (identifies key sock); cbn; lia.
Qed.

Lemma serve_counts key history : forall open open' reg,
  object_prototype key = None ->
  sessions open history open' ->
  reg !! key = entry_of (sockets_of key open) ->
  serve history reg !! key = entry_of (sockets_of key open').
Proof.
  intros open open' reg Hord Hsessions. revert reg.
  induction Hsessions as [open|open sock history open' _ IH
                         |before sock later history open' _ IH]; intros reg Hreg.
  - done.
  - cbn [serve]. apply IH.
    rewrite (handler_step key _ (Connects sock) silent 0 reg Hord Hreg).
    unfold sockets_of. cbn. by destruct (identifies key sock).
  - cbn [serve]. apply IH.
    rewrite (handler_step key _ (Disconnects sock) silent 0 reg Hord Hreg).
    rewrite sockets_of_middle. by destruct (identifies key sock).
Qed.

(** After any history of connections and disconnections in which only open
    sockets disconnect, the registry holds, for every user whose id names no
    inherited property, exactly the number of that user's open sockets, and
    no entry when there is none; the presence test is true exactly when the
    user has an open socket. *)
Theorem registry_counts_open_sockets (key : string) history open :
  object_prototype key = None ->
  sessions [] history open ->
  let reg := serve history ∅ in
  reg !! key = (if (sockets_of key open =? 0)%nat then None
                else Some (CNum (Z.of_nat (sockets_of key open))))
  /\ isOnline key reg = negb (sockets_of key open =? 0)%nat.
Proof.
  intros Hord Hsessions reg.
  assert (reg !! key = entry_of (sockets_of key open)) as Hreg
    by (by apply (serve_counts key history [] open ∅ Hord Hsessions)).
  split.
  - rewrite Hreg. by destruct (sockets_of key open).
  - apply (isOnline_entry key _ reg Hord Hreg).
Qed.

Lemma registry_counts_open_sockets_witness :
  object_prototype "alice" = None
  /\ serve [Connects (Socket "s1" (VStr "alice")); Connects (Socket "s2" (VStr "alice"));
            Disconnects (Socket "s1" (VStr "alice"))] ∅ !! "alice"
     = Some (CNum 1).
Proof.
  split; [reflexivity|].
  apply (registry_counts_open_sockets "alice" _ [Socket "s2" (VStr "alice")] eq_refl).
  apply sessions_connect, sessions_connect.
  exact (sessions_disconnect [Socket "s2" (VStr "alice")] (Socket "s1" (VStr "alice")) []
           [] _ (sessions_done _)).
Defined.

(** ** Connections and disconnections counted *)

(** Sockets are conserved: those open before plus those that connected
    are those open after plus those that disconnected. *)
Lemma sessions_balance key open history open' :
  sessions open history open' ->
  (sockets_of key open + connects key history
   = sockets_of key open' + disconnects key history)%nat.
Proof.
  induction 1 as [open|open sock history open' _ IH|before sock later history open' _ IH].
  - done.
  - unfold connects, disconnects, sockets_of in *. cbn in *.
    destruct (identifies key sock); cbn in *; lia.
  - rewrite sockets_of_middle. unfold connects, disconnects in *. cbn.
    destruct (identifies key sock); cbn; lia.
Qed.

(** The presence property in the order of calls that the server
    produces.  Let the registry start empty and let any history of
    connections and disconnections follow, in which N sockets of the user
    [key] connected and M of them disconnected, [key] not being the name of
    an inherited property.  Then M <= N; if N > M the user is reported
    online; if N <= M the user is reported offline and has no entry; and
    the entry, when there is one, is the count N - M. *)
Theorem presence_follows_connection_counts (key : string) history open :
  object_prototype key = None ->
  sessions [] history open ->
  let reg := serve history ∅ in
  let N := connects key history in
  let M := disconnects key history in
  (M <= N)%nat
  /\ ((M < N)%nat -> isOnline key reg = true)
  /\ ((N <= M)%nat -> isOnline key reg = false /\ reg !! key = None)
  /\ reg !! key = entry_of (N - M).
Proof.
  intros Hord Hsessions reg N M.
  pose proof (sessions_balance key [] history open Hsessions) as Hbalance.
  change (sockets_of key []) with 0%nat in Hbalance. fold N M in Hbalance.
  assert (reg !! key = entry_of (sockets_of key open)) as Hreg
    by (by apply (serve_counts key history [] open ∅ Hord Hsessions)).
  assert (sockets_of key open = N - M)%nat as Hopen by lia.
  rewrite Hopen in Hreg.
  pose proof (isOnline_entry key (N - M) reg Hord Hreg) as Honline.
  split; [lia|]. split; [|split; [|done]].
  - intros Hlt. rewrite Honline. by destruct (N - M)%nat eqn:Hd; [lia|].
  - intros Hle. rewrite Honline, Hreg. by replace (N - M)%nat with 0%nat by lia.
Qed.

Lemma presence_follows_connection_counts_witness :
  object_prototype "alice" = None
  /\ isOnline "alice"
       (serve [Connects (Socket "s1" (VStr "alice")); Connects (Socket "s2" (VStr "alice"));
               Disconnects (Socket "s1" (VStr "alice"))] ∅)
     = true.
Proof.
  split; [reflexivity|].
  refine (proj1 (proj2 (presence_follows_connection_counts "alice" _
                          [Socket "s2" (VStr "alice")] eq_refl _)) _).
  - apply sessions_connect, sessions_connect.
    exact (sessions_disconnect [Socket "s2" (VStr "alice")] (Socket "s1" (VStr "alice")) []
             [] _ (sessions_done _)).
  - vm_compute. lia.
Defined.

(** C3 at its failing input.  A client whose handshake gives the user id
    [constructor] meets the property [constructor] that [activeSockets]
    inherits from [Object.prototype].  Before anybody connected (N = 0, M =
    0) the user is reported online.  After that client connected and
    disconnected, which is a history that the server produces (N = 1, M =
    1), the registry holds an entry for the user, NaN, where the claim wants
    none.  The handlers did this through the increment of line 97 and the
    decrement of lines 103 to 106, in that order. *)
Theorem inherited_name_breaks_presence_counts :
  let sock := Socket "s1" (VStr "constructor") in
  let history := [Connects sock; Disconnects sock] in
  ((connects "constructor" [] = 0 /\ disconnects "constructor" [] = 0)%nat
   /\ isOnline "constructor" (serve [] ∅) = true)
  /\ sessions [] history []
  /\ ((connects "constructor" history = 1 /\ disconnects "constructor" history = 1)%nat
      /\ serve history ∅ !! "constructor" = Some CNaN)
  /\ serve history ∅ = exec [MarkOnline "constructor"; MarkOffline "constructor"] ∅.
Proof.
  cbn zeta. split; [by vm_compute|]. split; [|split].
  - apply sessions_connect.
    exact (sessions_disconnect [] (Socket "s1" (VStr "constructor")) [] [] _
             (sessions_done _)).
  - by vm_compute.
  - by vm_compute.
Qed.

(** ** Round trip and independence of registry updates *)

(** A registry update for one user leaves the entry of every other user as
    it is, whatever the ids. *)
Lemma call_frame (c : call) (key : string) w n reg :
  key <> user_of c ->
  final (run (call_prog c) w n reg) !! key = reg !! key
  /\ reg_get key (final (run (call_prog c) w n reg)) = reg_get key reg.
Proof.
  intros Hne.
  assert (final (run (call_prog c) w n reg) !! key = reg !! key) as Hsame.
  { destruct c as [u|u]; cbn [call_prog user_of] in *.
    - rewrite markOnline_final. unfold reg_set.
      destruct (String.eqb u "__proto__"); [done|]. by rewrite lookup_insert_ne.
    - rewrite markOffline_final. cbn zeta. unfold reg_set, reg_delete.
      destruct (String.eqb u "__proto__").
      + destruct (cell_le0 _); [|done]. by rewrite lookup_delete_ne.
      + destruct (cell_le0 _); [rewrite lookup_delete_ne by done|];
          by rewrite lookup_insert_ne. }
  split; [done|]. unfold reg_get. by rewrite Hsame.
Qed.

(** What a registry update stores for its own user depends on that user's
    entry only. *)
Lemma call_own (c : call) w n w' n' reg reg' :
  reg !! user_of c = reg' !! user_of c ->
  final (run (call_prog c) w n reg) !! user_of c
  = final (run (call_prog c) w' n' reg') !! user_of c.
Proof.
  intros Hsame.
  assert (reg_get (user_of c) reg = reg_get (user_of c) reg') as Hget
    by (unfold reg_get; by rewrite Hsame).
  destruct c as [u|u]; cbn [call_prog user_of] in *.
  - rewrite !markOnline_final, Hget. unfold reg_set.
    destruct (String.eqb u "__proto__"); [done|]. by rewrite !lookup_insert_eq.
  - rewrite !markOffline_final. cbn zeta. rewrite Hget. unfold reg_set, reg_delete, reg_get.
    destruct (String.eqb u "__proto__").
    + rewrite Hsame. destruct (cell_le0 _); [|done]. by rewrite !lookup_delete_eq.
    + rewrite !lookup_insert_eq.
      destruct (cell_le0 _); [by rewrite !lookup_delete_eq | by rewrite !lookup_insert_eq].
Qed.

(** Updates for different users do not interfere: each leaves the other
    user's entry alone, and two of them give the same registry in either
    order.  This holds for every id, inherited names included. *)
Theorem registry_updates_commute (c1 c2 : call) reg :
  user_of c1 <> user_of c2 ->
  exec [c1; c2] reg = exec [c2; c1] reg
  /\ exec [c1] reg !! user_of c2 = reg !! user_of c2
  /\ isOnline (user_of c2) (exec [c1] reg) = isOnline (user_of c2) reg.
Proof.
  intros Hne. cbn [exec]. split; [|split].
  - apply map_eq. intros key.
    destruct (decide (key = user_of c1)) as [->|H1].
    + destruct (call_frame c2 (user_of c1) silent 0
                  (final (run (call_prog c1) silent 0 reg)) Hne) as [-> _].
      apply call_own.
      by destruct (call_frame c2 (user_of c1) silent 0 reg Hne) as [-> _].
    + destruct (call_frame c1 key silent 0
                  (final (run (call_prog c2) silent 0 reg)) H1) as [-> _].
      destruct (decide (key = user_of c2)) as [->|H2].
      * apply call_own.
        by destruct (call_frame c1 (user_of c2) silent 0 reg (not_eq_sym Hne)) as [-> _].
      * destruct (call_frame c2 key silent 0
                    (final (run (call_prog c1) silent 0 reg)) H2) as [-> _].
        destruct (call_frame c1 key silent 0 reg H1) as [-> _].
        by destruct (call_frame c2 key silent 0 reg H2) as [-> _].
  - by destruct (call_frame c1 (user_of c2) silent 0 reg (not_eq_sym Hne)) as [-> _].
  - unfold isOnline, active_of.
    by destruct (call_frame c1 (user_of c2) silent 0 reg (not_eq_sym Hne)) as [_ ->].
Qed.

Lemma registry_updates_commute_witness :
  user_of (MarkOnline "alice") <> user_of (MarkOffline "constructor")
  /\ exec [MarkOnline "alice"; MarkOffline "constructor"] ∅
     = exec [MarkOffline "constructor"; MarkOnline "alice"] ∅.
Proof.
  assert (user_of (MarkOnline "alice") <> user_of (MarkOffline "constructor")) as Hne
    by (cbn; congruence).
  split; [exact Hne|].
  exact (proj1 (registry_updates_commute (MarkOnline "alice") (MarkOffline "constructor")
                  ∅ Hne)).
Defined.

Lemma positive_entry_level (key : string) (reg : registry) :
  (forall c, reg !! key = Some c -> exists count, c = CNum count /\ 0 < count) ->
  exists lvl, reg !! key = entry_of lvl.
Proof.
  intros Hentry. destruct (reg !! key) as [c|]; [|by exists 0%nat].
  destruct (Hentry c eq_refl) as (count & -> & Hpos).
  exists (Z.to_nat count). destruct (Z.to_nat count) eqn:Hn; [lia|].
  cbn [entry_of]. rewrite <- Hn. do 2 f_equal. lia.
Qed.

Lemma markOnline_ordinary key lvl w n reg :
  object_prototype key = None -> reg !! key = entry_of lvl ->
  final (run (markOnline key) w n reg) = <[key := CNum (Z.of_nat (S lvl))]> reg.
Proof.
  intros Hord Hreg. rewrite markOnline_final. unfold reg_set.
  by rewrite (ordinary_not_proto key Hord), (reg_get_ordinary key lvl reg Hord Hreg),
    succ_cell_of.
Qed.

Lemma markOffline_ordinary key lvl w n reg :
  object_prototype key = None -> reg !! key = entry_of lvl ->
  final (run (markOffline key) w n reg)
  = match Nat.pred lvl with
    | O => delete key reg
    | S m => <[key := CNum (Z.of_nat (S m))]> reg
    end.
Proof.
  intros Hord Hreg. rewrite markOffline_final. cbn zeta. unfold reg_set, reg_delete.
  rewrite (ordinary_not_proto key Hord), (reg_get_ordinary key lvl reg Hord Hreg),
    pred_cell_of.
  unfold reg_get. rewrite lookup_insert_eq. cbn [cell_le0].
  destruct (Nat.pred lvl) as [|m].
  - change (Z.of_nat 0 <=? 0) with true. cbn iota. apply delete_insert_eq.
  - by assert ((Z.of_nat (S m) <=? 0) = false) as -> by (apply Z.leb_gt; lia).
Qed.

(** A connection followed by the disconnection of the same socket gives the
    registry back as it was, for a user whose id names no inherited property
    and whose entry, if any, is a positive count. *)
Theorem connect_disconnect_round_trip (sock : socket) (key : string) w n w' n' reg :
  truthy (handshake_userId sock) = true ->
  to_string (handshake_userId sock) = Some key ->
  object_prototype key = None ->
  (forall c, reg !! key = Some c -> exists count, c = CNum count /\ 0 < count) ->
  final (run (disconnect sock) w' n' (final (run (connection sock) w n reg))) = reg.
Proof.
  intros Htruthy Hkey Hord Hentry.
  destruct (positive_entry_level key reg Hentry) as [lvl Hlvl].
  destruct (connection_marks_online sock key w n reg Htruthy Hkey) as [-> _].
  rewrite (disconnect_marks_offline sock key w' n' _ Htruthy Hkey).
  rewrite (markOnline_ordinary key lvl w n reg Hord Hlvl).
  rewrite (markOffline_ordinary key (S lvl) w' n' _ Hord) by apply lookup_insert_eq.
  cbn [Nat.pred]. destruct lvl as [|m].
  - by apply delete_insert_id.
  - rewrite insert_insert_eq. by apply insert_id.
Qed.

Lemma connect_disconnect_round_trip_witness :
  truthy (VStr "alice") = true
  /\ final (run (disconnect (Socket "s1" (VStr "alice"))) silent 0
              (final (run (connection (Socket "s1" (VStr "alice"))) silent 0 only_A_online)))
     = only_A_online.
Proof.
  split; [reflexivity|].
  apply (connect_disconnect_round_trip (Socket "s1" (VStr "alice")) "alice");
    try reflexivity.
  intros c Hc. vm_compute in Hc. discriminate Hc.
Defined.

(** ** Group messages, read receipts and group joins *)

Lemma sendGroupMessage_run payload gid mc (key s3 : string) w n reg :
  member payload "groupChatId" = Some gid ->
  member payload "messageContent" = Some mc ->
  truthy gid = true ->
  to_string gid = Some key -> to_string mc = Some s3 ->
  run (sendGroupMessage payload) w n reg
  = RunOf [EConsole Log ("[sendGroupMessage] Group " +:+ key +:+ ": " +:+ s3);
           EEmit ("group:" +:+ key) "newGroupMessage" payload]
          reg (Returned tt).
Proof.
  intros Hgid Hmc Htruthy Hkey Hs3. unfold sendGroupMessage. rewrite Hgid, Hmc.
  cbn. rewrite Hkey, Hs3, Htruthy. cbn. by rewrite !append_empty.
Qed.

Lemma directMessageRead_run payload mid sid rd (key s1 s3 : string) w n reg :
  member payload "messageId" = Some mid ->
  member payload "senderId" = Some sid ->
  member payload "readerId" = Some rd ->
  truthy sid = true ->
  to_string mid = Some s1 -> to_string sid = Some key -> to_string rd = Some s3 ->
  run (directMessageRead payload) w n reg
  = RunOf [EConsole Log ("[directMessageRead] messageId=" +:+ s1 +:+ " read by " +:+ s3);
           EEmit ("user:" +:+ key) "directMessageRead" payload]
          reg (Returned tt).
Proof.
  intros Hmid Hsid Hrd Htruthy Hs1 Hkey Hs3. unfold directMessageRead.
  rewrite Hmid, Hsid, Hrd. cbn. rewrite Hs1, Hkey, Hs3, Htruthy. cbn.
  by rewrite !append_empty.
Qed.

Lemma joinGroup_run (sock : socket) payload gid (key : string) w n reg :
  member payload "groupChatId" = Some gid ->
  truthy gid = true ->
  to_string gid = Some key ->
  run (joinGroup sock payload) w n reg
  = RunOf [EConsole Log ("[joinGroup] socket.id=" +:+ socket_id sock +:+
                         " joining group:" +:+ key);
           EJoin ("group:" +:+ key)]
          reg (Returned tt).
Proof.
  intros Hgid Htruthy Hkey. unfold joinGroup. rewrite Hgid. cbn.
  rewrite Hkey, Htruthy. cbn. by rewrite !append_empty.
Qed.

(** A [sendGroupMessage] event with a truthy [groupChatId] multicasts the
    payload itself, once, to the room [group:<groupChatId>] as
    [newGroupMessage], and returns.  It has no presence check and no push
    fallback: it never reads the registry, asks the token directory or calls
    the push API, whoever is connected. *)
Theorem sendGroupMessage_routes payload gid mc (key s3 : string) w n reg :
  member payload "groupChatId" = Some gid ->
  member payload "messageContent" = Some mc ->
  truthy gid = true ->
  to_string gid = Some key -> to_string mc = Some s3 ->
  let r := run (sendGroupMessage payload) w n reg in
  emitted (trace r) = [("group:" +:+ key, "newGroupMessage", payload)]
  /\ outcome r = Returned tt /\ final r = reg
  /\ Forall (fun e => touches_registry e = false) (trace r)
  /\ Forall (fun e => push_path e = false) (trace r)
  /\ joined (trace r) = [].
Proof.
  intros Hgid Hmc Htruthy Hkey Hs3.
  cbn zeta. rewrite (sendGroupMessage_run payload gid mc key s3 w n reg
                       Hgid Hmc Htruthy Hkey Hs3).
  cbn. repeat split; by repeat constructor.
Qed.

Lemma sendGroupMessage_routes_witness :
  truthy (VNum 7) = true
  /\ emitted (trace (run (sendGroupMessage
                            (VObj [("groupChatId", VNum 7); ("messageContent", VStr "hi")]))
                         silent 0 only_A_online))
     = [("group:7", "newGroupMessage",
         VObj [("groupChatId", VNum 7); ("messageContent", VStr "hi")])].
Proof.
  split; [reflexivity|].
  destruct (sendGroupMessage_routes
              (VObj [("groupChatId", VNum 7); ("messageContent", VStr "hi")])
              (VNum 7) (VStr "hi") "7" "hi" silent 0 only_A_online
              eq_refl eq_refl eq_refl eq_refl eq_refl) as (Hemit & _).
  exact Hemit.
Defined.

(** A [directMessageRead] event with a truthy [senderId] multicasts the
    payload itself, once, to the room [user:<senderId>] of the original
    sender, as [directMessageRead], and returns; no presence check, no push
    fallback, no room joined. *)
Theorem directMessageRead_routes payload mid sid rd (key s1 s3 : string) w n reg :
  member payload "messageId" = Some mid ->
  member payload "senderId" = Some sid ->
  member payload "readerId" = Some rd ->
  truthy sid = true ->
  to_string mid = Some s1 -> to_string sid = Some key -> to_string rd = Some s3 ->
  let r := run (directMessageRead payload) w n reg in
  emitted (trace r) = [("user:" +:+ key, "directMessageRead", payload)]
  /\ outcome r = Returned tt /\ final r = reg
  /\ Forall (fun e => touches_registry e = false) (trace r)
  /\ Forall (fun e => push_path e = false) (trace r)
  /\ joined (trace r) = [].
Proof.
  intros Hmid Hsid Hrd Htruthy Hs1 Hkey Hs3.
  cbn zeta. rewrite (directMessageRead_run payload mid sid rd key s1 s3 w n reg
                       Hmid Hsid Hrd Htruthy Hs1 Hkey Hs3).
  cbn. repeat split; by repeat constructor.
Qed.

Lemma directMessageRead_routes_witness :
  truthy (VStr "A") = true
  /\ emitted (trace (run (directMessageRead
                            (VObj [("messageId", VNum 12); ("senderId", VStr "A");
                                   ("readerId", VStr "bob")]))
                         silent 0 only_A_online))
     = [("user:A", "directMessageRead",
         VObj [("messageId", VNum 12); ("senderId", VStr "A"); ("readerId", VStr "bob")])].
Proof.
  split; [reflexivity|].
  destruct (directMessageRead_routes
              (VObj [("messageId", VNum 12); ("senderId", VStr "A");
                     ("readerId", VStr "bob")])
              (VNum 12) (VStr "A") (VStr "bob") "A" "12" "bob" silent 0 only_A_online
              eq_refl eq_refl eq_refl eq_refl eq_refl eq_refl eq_refl) as (Hemit & _).
  exact Hemit.
Defined.

(** A [joinGroup] event with a truthy [groupChatId] puts the socket into
    the room [group:<groupChatId>], once, emits nothing and leaves the
    registry alone; and that room is the one to which [sendGroupMessage]
    multicasts a message that carries the same [groupChatId]. *)
Theorem joinGroup_joins_the_message_room
    (sock : socket) payload gid (key : string) w n reg :
  member payload "groupChatId" = Some gid ->
  truthy gid = true ->
  to_string gid = Some key ->
  let r := run (joinGroup sock payload) w n reg in
  (joined (trace r) = ["group:" +:+ key] /\ emitted (trace r) = []
   /\ outcome r = Returned tt /\ final r = reg
   /\ Forall (fun e => touches_registry e = false) (trace r))
  /\ forall message mc s3 w' n' reg',
       member message "groupChatId" = Some gid ->
       member message "messageContent" = Some mc -> to_string mc = Some s3 ->
       map (fun m => m.1.1) (emitted (trace (run (sendGroupMessage message) w' n' reg')))
       = joined (trace r).
Proof.
  intros Hgid Htruthy Hkey. cbn zeta.
  rewrite (joinGroup_run sock payload gid key w n reg Hgid Htruthy Hkey).
  split.
  - cbn. repeat split; by repeat constructor.
  - intros message mc s3 w' n' reg' Hmgid Hmc Hs3.
    by rewrite (sendGroupMessage_run message gid mc key s3 w' n' reg'
                  Hmgid Hmc Htruthy Hkey Hs3).
Qed.

Lemma joinGroup_joins_the_message_room_witness :
  truthy (VNum 7) = true
  /\ joined (trace (run (joinGroup (Socket "s1" (VStr "A")) (VObj [("groupChatId", VNum 7)]))
                        silent 0 only_A_online))
     = ["group:7"].
Proof.
  split; [reflexivity|].
  destruct (joinGroup_joins_the_message_room (Socket "s1" (VStr "A"))
              (VObj [("groupChatId", VNum 7)]) (VNum 7) "7" silent 0 only_A_online
              eq_refl eq_refl eq_refl) as ((Hjoined & _) & _).
  exact Hjoined.
Defined.

Section UserRoom.

Variable isExpoPushToken : value -> bool.
Variable socket_url : option string.

(** An identified socket joins exactly the room [user:<userId>], and this
    is the room to which a direct message, or a read receipt, is multicast
    when its [recipientId], or [senderId], prints like the socket's user id
    (the number 42 and the string 42 name the same user). *)
Theorem connection_joins_the_user_room
    (sock : socket) (key : string) w n reg :
  truthy (handshake_userId sock) = true ->
  to_string (handshake_userId sock) = Some key ->
  let r := run (connection sock) w n reg in
  (joined (trace r) = ["user:" +:+ key] /\ emitted (trace r) = []
   /\ outcome r = Returned tt
   /\ Forall (fun e => push_path e = false) (trace r))
  /\ (forall payload rid sid mc (s1 s3 : string) w' n' reg',
        member payload "recipientId" = Some rid ->
        member payload "senderId" = Some sid ->
        member payload "messageContent" = Some mc ->
        truthy rid = true ->
        to_string sid = Some s1 -> to_string rid = Some key -> to_string mc = Some s3 ->
        map (fun m => m.1.1)
            (emitted (trace (run (sendDirectMessage isExpoPushToken socket_url payload)
                                 w' n' reg')))
        = joined (trace r))
  /\ (forall payload mid sid rd (s1 s3 : string) w' n' reg',
        member payload "messageId" = Some mid ->
        member payload "senderId" = Some sid ->
        member payload "readerId" = Some rd ->
        truthy sid = true ->
        to_string mid = Some s1 -> to_string sid = Some key -> to_string rd = Some s3 ->
        map (fun m => m.1.1) (emitted (trace (run (directMessageRead payload) w' n' reg')))
        = joined (trace r)).
Proof.
  intros Htruthy Hkey r.
  assert (joined (trace r) = ["user:" +:+ key]) as Hjoined
    by apply (connection_marks_online sock key w n reg Htruthy Hkey).
  split; [|split].
  - split; [exact Hjoined|]. subst r. unfold connection. rewrite Htruthy.
    cbn -[cell_to_string]. rewrite Hkey. cbn -[cell_to_string].
    repeat split; by repeat constructor.
  - intros payload rid sid mc s1 s3 w' n' reg' Hrid Hsid Hmc Hrt Hs1 Hrk Hs3.
    rewrite Hjoined, (sendDirectMessage_run isExpoPushToken socket_url payload rid sid mc
                        key s1 s3 w' n' reg' Hrid Hsid Hmc Hrt Hs1 Hrk Hs3).
    cbn zeta.
    destruct (getPushTokens_returns socket_url rid key w' n' reg' Hrk)
      as (_ & _ & _ & He & _).
    destruct (isOnline key reg'); cbn; [done | by rewrite He].
  - intros payload mid sid rd s1 s3 w' n' reg' Hmid Hsid Hrd Hst Hs1 Hsk Hs3.
    by rewrite Hjoined, (directMessageRead_run payload mid sid rd key s1 s3 w' n' reg'
                           Hmid Hsid Hrd Hst Hs1 Hsk Hs3).
Qed.

End UserRoom.

Lemma connection_joins_the_user_room_witness :
  truthy (VNum 42) = true
  /\ joined (trace (run (connection (Socket "s1" (VNum 42))) silent 0 ∅)) = ["user:42"].
Proof.
  split; [reflexivity|].
  destruct (connection_joins_the_user_room bracketed_token None (Socket "s1" (VNum 42)) "42"
              silent 0 ∅ eq_refl eq_refl) as ((Hjoined & _) & _).
  exact Hjoined.
Defined.

(** ** The sender on any address *)

Lemma doubling_bounds (k : nat) :
  (k <= 4)%nat ->
  doubling 1000 k `prefix_of` [1000; 2000; 4000; 8000]
  /\ 0 <= fold_right Z.add 0 (doubling 1000 k) <= 15000.
Proof.
  intros Hk. do 5 (destruct k as [|k]; [cbn; split; [by eexists | lia]|]). lia.
Qed.

Lemma sends_only_bind {A B : Type} (p : prog A) (f : A -> prog B) :
  sends_only p -> (forall a, sends_only (f a)) -> sends_only (bind p f).
Proof. intros Hp Hf. induction p; cbn in *; auto; done. Qed.

Lemma sends_only_try_catch {A : Type} (p : prog A) (h : exn -> prog A) :
  sends_only p -> (forall e, sends_only (h e)) -> sends_only (try_catch p h).
Proof. intros Hp Hh. induction p; cbn in *; auto; done. Qed.

Lemma sends_only_console l pieces : sends_only (console l pieces).
Proof. unfold console. by destruct (template pieces). Qed.

Lemma run_sends_only {A : Type} (p : prog A) w n reg :
  sends_only p -> Forall (fun e => sender_event e = true) (trace (run p w n reg)).
Proof.
  revert n reg.
  induction p as [a|e|l text k IH|key k IH|key c k IH|key k IH|room k IH
                 |room ev payload k IH|url k IH|batch k IH|ms k IH];
    intros n reg Hp; cbn in Hp |- *; try done.
  - constructor; [done | by apply IH].
  - constructor; [done | apply IH, Hp].
  - constructor; [done | by apply IH].
Qed.

Lemma sender_events_quiet (t : list event) :
  Forall (fun e => sender_event e = true) t ->
  emitted t = [] /\ joined t = [] /\ fetched t = []
  /\ Forall (fun e => touches_registry e = false) t.
Proof.
  induction 1 as [|e t He _ (IHe & IHj & IHf & IHr)]; [done|].
  destruct e; cbn in *; try done; repeat split; try done; by constructor.
Qed.

Section SenderBounds.

Variable isExpoPushToken : value -> bool.

Lemma attempts_sends_only left msg token attempt delay :
  sends_only (attempts left msg token attempt delay).
Proof.
  revert attempt delay. induction left as [|left IH]; intros attempt delay; [done|].
  cbn [attempts]. apply sends_only_bind.
  - unfold attempt_once. apply sends_only_try_catch.
    + cbn. intros [tickets|err]; cbn; [|done].
      apply sends_only_bind; [apply sends_only_console | done].
    + intros e. destruct (is_429 (status_code e) && (attempt <? 4)).
      * apply sends_only_bind; [apply sends_only_console | done].
      * apply sends_only_bind; [apply sends_only_console | done].
  - intros [delay'|]; [apply IH | done].
Qed.

Lemma sendPushWithRetry_sends_only address body :
  sends_only (sendPushWithRetry isExpoPushToken address body).
Proof.
  unfold sendPushWithRetry. destruct (isExpoPushToken address); cbn [negb].
  - apply attempts_sends_only.
  - apply sends_only_console.
Qed.

(** An address that does not print makes the console line that follows the
    first reply raise, inside the [try] or in the [catch]. *)
Lemma attempts_unprintable (left : nat) msg token (attempt delay : Z) w n reg :
  to_string token = None ->
  run (attempts (S left) msg token attempt delay) w n reg
  = RunOf [EPush [msg]] reg (Raised TypeError).
Proof.
  intros Hnone. cbn -[Z.ltb Z.add Z.mul pretty].
  destruct (push_reply_of w n) as [tickets|err];
    cbn -[Z.ltb Z.add Z.mul pretty]; rewrite ?Hnone; cbn -[Z.ltb Z.add Z.mul pretty];
    rewrite ?Hnone; try done.
  destruct (is_429 (opt_member err "statusCode") && (attempt <? 4));
    cbn -[Z.ltb Z.add Z.mul pretty]; rewrite ?Hnone; done.
Qed.

(** The calls and the delays of one sender, whatever it is given. *)
Lemma sender_calls_and_delays address body w reg :
  let r := run (sendPushWithRetry isExpoPushToken address body) w 0 reg in
  ((length (batches (trace r)) <= 5)%nat
   /\ Forall (fun batch => batch = [Message address "New message" body])
             (batches (trace r)))
  /\ (timeouts (trace r) `prefix_of` [1000; 2000; 4000; 8000]
      /\ 0 <= total_delay (trace r) <= 15000)
  /\ (is_Some (to_string address) -> outcome r = Returned tt).
Proof.
  cbn zeta. unfold sendPushWithRetry, total_delay.
  destruct (isExpoPushToken address); cbn [negb].
  - destruct (to_string address) as [text|] eqn:Htext.
    + destruct (attempts_run 4 (Message address "New message" body) address text
                  1000 w 0 reg Htext) as (Ho & Hf & Hb & Ht & _); [lia|].
      change (4 - Z.of_nat 4) with 0 in *. cbn zeta in *.
      pose proof (limited_run_bound w 0 4) as Hk.
      destruct (doubling_bounds _ Hk) as [Hprefix Hsum].
      rewrite Hb, Ht, Ho, length_replicate.
      split; [split; [lia | by apply Forall_replicate]|]. done.
    + rewrite (attempts_unprintable 4 _ address 0 1000 w 0 reg Htext). cbn.
      split; [split; [lia | by repeat constructor]|].
      split; [split; [by eexists | lia]|]. by intros [? ?].
  - destruct (to_string address) as [text|] eqn:Htext; cbn; rewrite ?Htext; cbn.
    + split; [split; [lia | done]|]. split; [split; [by eexists | lia]|]. done.
    + split; [split; [lia | done]|]. split; [split; [by eexists | lia]|]. by intros [? ?].
Qed.

(** Whatever the address, the message and the replies of the push API,
    [sendPushWithRetry] calls the API at most 5 times, always with the
    one-message batch made of this address, the title [New message] and the
    message content as body; the delays it waits are the first ones of 1000,
    2000, 4000, 8000 ms, 15 seconds in all at most; it emits nothing, joins
    no room, asks nothing of the token directory and neither reads nor
    writes the registry.  It raises only for an address that does not
    print. *)
Theorem sendPushWithRetry_bounded address body w reg :
  let r := run (sendPushWithRetry isExpoPushToken address body) w 0 reg in
  ((length (batches (trace r)) <= 5)%nat
   /\ Forall (fun batch => batch = [Message address "New message" body])
             (batches (trace r)))
  /\ (timeouts (trace r) `prefix_of` [1000; 2000; 4000; 8000]
      /\ 0 <= total_delay (trace r) <= 15000)
  /\ (emitted (trace r) = [] /\ joined (trace r) = [] /\ fetched (trace r) = []
      /\ Forall (fun e => touches_registry e = false) (trace r))
  /\ final r = reg
  /\ (is_Some (to_string address) -> outcome r = Returned tt).
Proof.
  intros r.
  pose proof (sender_events_quiet _
                (run_sends_only _ w 0 reg (sendPushWithRetry_sends_only address body)))
    as Hquiet.
  pose proof (proj1 (run_writes_nothing _ w 0 reg
                       (sendPushWithRetry_writes_nothing isExpoPushToken address body)))
    as Hfinal.
  destruct (sender_calls_and_delays address body w reg) as (Hcalls & Hdelays & Hreturns).
  fold r in Hquiet, Hfinal, Hcalls, Hdelays, Hreturns.
  done.
Qed.

End SenderBounds.

(** ** The resolver on any user id *)

Lemma tokens_of_truthy data tokens :
  tokens_of data = Some tokens -> Forall (fun t => truthy t = true) tokens.
Proof.
  unfold tokens_of. destruct (member data "items") as [items|]; cbn; [|done].
  destruct (nullish items); [by intros [= <-]|].
  destruct items as [| | | | |records|]; try done.
  destruct (mapM _ records) as [fields|]; cbn; [|done].
  intros [= <-]. apply List.Forall_forall. intros t Ht.
  by apply List.filter_In in Ht as [_ Ht].
Qed.

Section ResolverTotal.

Variable socket_url : option string.

(** [getPushTokens] raises in one case only, a user id that does not print
    (the template of the URL raises, and so does the console line of the
    [catch]); it has then requested nothing.  For every other user id it
    requests the URL of that user once and returns a list of truthy values;
    it writes at most one console line, an error, and when it writes one the
    list is empty. *)
Theorem getPushTokens_raises_only_on_unprintable_id userId w n reg :
  let r := run (getPushTokens socket_url userId) w n reg in
  match to_string userId with
  | None => r = RunOf [] reg (Raised TypeError)
  | Some s =>
      exists tokens,
        outcome r = Returned tokens
        /\ Forall (fun t => truthy t = true) tokens
        /\ fetched (trace r) = [token_url socket_url s]
        /\ (length (console_lines (trace r)) <= 1)%nat
        /\ Forall (fun line => line.1 = Error) (console_lines (trace r))
        /\ (console_lines (trace r) <> [] -> tokens = [])
  end.
Proof.
  intros r. destruct (to_string userId) as [s|] eqn:Hs.
  - subst r. rewrite (getPushTokens_run socket_url userId s w n reg Hs). cbn zeta.
    destruct (fetch_reply_of w _) as [reason|[ok status [data|]]]; cbn [res_ok res_json].
    + exists []. cbn. repeat split; try done; try lia. by repeat constructor.
    + destruct ok.
      * destruct (tokens_of data) as [tokens|] eqn:Htokens.
        -- exists tokens. cbn. repeat split; try done; try lia.
           by apply tokens_of_truthy in Htokens.
        -- exists []. cbn. repeat split; try done; try lia. by repeat constructor.
      * exists []. cbn. repeat split; try done; try lia. by repeat constructor.
    + destruct ok; exists []; cbn; repeat split; try done; try lia; by repeat constructor.
  - subst r. unfold getPushTokens. cbn -[baseUrl]. rewrite Hs. reflexivity.
Qed.

End ResolverTotal.

(** ** A direct message after a history of sockets *)

Section EndToEnd.

Variable isExpoPushToken : value -> bool.
Variable socket_url : option string.

(** From the empty registry and through any history of connections and
    disconnections, a direct message to a user whose id is not the name of
    an inherited property is multicast once, and the push fallback follows
    the open sockets: with at least one open socket of the recipient the
    directory is not asked and no sender is started; with none, the
    directory is asked once, for the recipient, and one sender is started
    per address that [getPushTokens] returns. *)
Theorem push_fallback_follows_open_sockets
    history open payload rid sid mc (key s1 s3 : string) w n :
  sessions [] history open ->
  object_prototype key = None ->
  member payload "recipientId" = Some rid ->
  member payload "senderId" = Some sid ->
  member payload "messageContent" = Some mc ->
  truthy rid = true ->
  to_string sid = Some s1 -> to_string rid = Some key -> to_string mc = Some s3 ->
  let reg := serve history ∅ in
  let r := run (sendDirectMessage isExpoPushToken socket_url payload) w n reg in
  emitted (trace r) = [("user:" +:+ key, "newDirectMessage", payload)]
  /\ batches (trace r) = [] /\ final r = reg
  /\ if (sockets_of key open =? 0)%nat
     then fetched (trace r) = [token_url socket_url key]
          /\ exists tokens,
               outcome (run (getPushTokens socket_url rid) w n reg) = Returned tokens
               /\ outcome r
                  = Returned (map (fun token => sendPushWithRetry isExpoPushToken token mc)
                                  tokens)
     else fetched (trace r) = [] /\ outcome r = Returned [].
Proof.
  intros Hsessions Hord Hrid Hsid Hmc Htruthy Hs1 Hkey Hs3 reg r.
  assert (reg !! key = entry_of (sockets_of key open)) as Hreg
    by (by apply (serve_counts key history [] open ∅ Hord Hsessions)).
  assert (isOnline key reg = negb (sockets_of key open =? 0)%nat) as Honline.
  { rewrite (isOnline_entry key (sockets_of key open) reg Hord Hreg).
    by destruct (sockets_of key open). }
  subst r.
  rewrite (sendDirectMessage_run isExpoPushToken socket_url payload rid sid mc key s1 s3
             w n reg Hrid Hsid Hmc Htruthy Hs1 Hkey Hs3).
  cbn zeta. rewrite Honline.
  destruct (getPushTokens_returns socket_url rid key w n reg Hkey)
    as ([tokens Ho] & _ & Hb & He & Hf & _).
  destruct (sockets_of key open =? 0)%nat; cbn [negb].
  - cbn. rewrite Hb, He, Hf, Ho. repeat split; try done. by exists tokens.
  - cbn. done.
Qed.

End EndToEnd.

Lemma push_fallback_follows_open_sockets_witness :
  object_prototype "bob" = None
  /\ fetched (trace (run (sendDirectMessage bracketed_token None (hi_to "bob"))
                         (sample_directory "bob") 0
                         (serve [Connects (Socket "s1" (VStr "bob"))] ∅)))
     = [].
Proof.
  split; [reflexivity|].
  destruct (push_fallback_follows_open_sockets bracketed_token None
              [Connects (Socket "s1" (VStr "bob"))] [Socket "s1" (VStr "bob")]
              (hi_to "bob") (VStr "bob") (VStr "A") (VStr "hi") "bob" "A" "hi"
              (sample_directory "bob") 0
              (sessions_connect [] _ [] _ (sessions_done _))
              eq_refl eq_refl eq_refl eq_refl eq_refl eq_refl eq_refl eq_refl)
    as (_ & _ & _ & Hfetched & _).
  exact Hfetched.
Defined.

(** ** What the connection handlers log *)

Lemma connection_lines (sock : socket) (key : string) lvl w n reg :
  truthy (handshake_userId sock) = true ->
  to_string (handshake_userId sock) = Some key ->
  object_prototype key = None -> reg !! key = entry_of lvl ->
  console_lines (trace (run (connection sock) w n reg))
  = [(Log, "[socket.io] New connection: socket.id=" +:+ socket_id sock +:+
           ", userId=" +:+ key);
     (Log, "[socket.io] Joined room user:" +:+ key +:+ "; active connections=" +:+
           pretty (Z.of_nat (S lvl)))].
Proof.
  intros Htruthy Hkey Hord Hreg. unfold connection. rewrite Htruthy.
  cbn -[cell_to_string pretty]. rewrite Hkey. cbn -[cell_to_string pretty].
  rewrite !append_empty.
  rewrite (reg_get_ordinary key lvl reg Hord Hreg), succ_cell_of.
  unfold reg_set, reg_get. rewrite (ordinary_not_proto key Hord), lookup_insert_eq.
  done.
Qed.

Lemma disconnect_lines (sock : socket) (key : string) lvl w n reg :
  truthy (handshake_userId sock) = true ->
  to_string (handshake_userId sock) = Some key ->
  object_prototype key = None -> reg !! key = entry_of lvl ->
  console_lines (trace (run (disconnect sock) w n reg))
  = [(Log, "[socket.io] socket.id=" +:+ socket_id sock +:+ " disconnected; user:" +:+
           key +:+ " connections=" +:+ pretty (Z.of_nat (Nat.pred lvl)))].
Proof.
  intros Htruthy Hkey Hord Hreg. unfold disconnect. rewrite Htruthy.
  cbn -[cell_to_string pretty]. rewrite Hkey. cbn -[cell_to_string pretty].
  rewrite (reg_get_ordinary key lvl reg Hord Hreg), pred_cell_of.
  unfold reg_set, reg_get, reg_delete.
  rewrite (ordinary_not_proto key Hord), lookup_insert_eq. cbn [cell_le0].
  destruct (Nat.pred lvl) as [|m].
  - change (Z.of_nat 0 <=? 0) with true. cbn -[cell_to_string pretty].
    unfold reg_get, reg_delete.
    rewrite lookup_delete_eq, Hord. cbn -[pretty]. by rewrite !append_empty.
  - assert ((Z.of_nat (S m) <=? 0) = false) as -> by (apply Z.leb_gt; lia).
    cbn -[cell_to_string pretty Z.of_nat]. unfold reg_get. rewrite lookup_insert_eq.
    assert ((Z.of_nat (S m) =? 0) = false) as Hpos by (apply Z.eqb_neq; lia).
    cbn -[pretty Z.of_nat]. rewrite ?Hpos. cbn -[pretty Z.of_nat].
    by rewrite !append_empty.
Qed.

(** From the empty registry and through any history of connections and
    disconnections, the count that the handlers print for a user whose id
    names no inherited property is the number of that user's open sockets:
    a new connection logs the number of open sockets including the new one,
    a disconnection the number that remain ([0] when none does, and also
    when none was open). *)
Theorem handlers_log_the_open_sockets history open (sock : socket) (key : string) w n :
  sessions [] history open ->
  object_prototype key = None ->
  truthy (handshake_userId sock) = true ->
  to_string (handshake_userId sock) = Some key ->
  let reg := serve history ∅ in
  console_lines (trace (run (connection sock) w n reg))
  = [(Log, "[socket.io] New connection: socket.id=" +:+ socket_id sock +:+
           ", userId=" +:+ key);
     (Log, "[socket.io] Joined room user:" +:+ key +:+ "; active connections=" +:+
           pretty (Z.of_nat (S (sockets_of key open))))]
  /\ console_lines (trace (run (disconnect sock) w n reg))
     = [(Log, "[socket.io] socket.id=" +:+ socket_id sock +:+ " disconnected; user:" +:+
              key +:+ " connections=" +:+
              pretty (Z.of_nat (Nat.pred (sockets_of key open))))].
Proof.
  intros Hsessions Hord Htruthy Hkey reg.
  assert (reg !! key = entry_of (sockets_of key open)) as Hreg
    by (by apply (serve_counts key history [] open ∅ Hord Hsessions)).
  split.
  - by apply connection_lines.
  - by apply disconnect_lines.
Qed.

Lemma handlers_log_the_open_sockets_witness :
  object_prototype "bob" = None
  /\ console_lines (trace (run (connection (Socket "s2" (VStr "bob"))) silent 0
                               (serve [Connects (Socket "s1" (VStr "bob"))] ∅)))
     = [(Log, "[socket.io] New connection: socket.id=s2, userId=bob");
        (Log, "[socket.io] Joined room user:bob; active connections=2")].
Proof.
  split; [reflexivity|].
  exact (proj1 (handlers_log_the_open_sockets
                  [Connects (Socket "s1" (VStr "bob"))] [Socket "s1" (VStr "bob")]
                  (Socket "s2" (VStr "bob")) "bob" silent 0
                  (sessions_connect [] _ [] _ (sessions_done _))
                  eq_refl eq_refl eq_refl)).
Defined.

(** ** A direct message to its end *)

Lemma unprintable_truthy (v : value) : to_string v = None -> truthy v = true.
Proof.
  intros Hnone. destruct (truthy v) eqn:Htruthy; [done|].
  destruct (falsy_prints v Htruthy) as [s Hs]. congruence.
Qed.

Section HandlerEnd.

Variable isExpoPushToken : value -> bool.
Variable socket_url : option string.

(** A sender raises for the addresses that do not print, and for no
    other, whatever the push API replies. *)
Lemma sender_outcome address body w reg :
  outcome (run (sendPushWithRetry isExpoPushToken address body) w 0 reg)
  = if prints address then Returned tt else Raised TypeError.
Proof.
  unfold prints. destruct (to_string address) as [text|] eqn:Htext.
  - apply (sender_calls_and_delays isExpoPushToken address body w reg). by eexists.
  - unfold sendPushWithRetry. destruct (isExpoPushToken address); cbn [negb].
    + by rewrite (attempts_unprintable 4 _ address 0 1000 w 0 reg Htext).
    + cbn. by rewrite Htext.
Qed.

Lemma sender_runs_length senders replies reg :
  length (sender_runs senders replies reg) = length senders.
Proof.
  revert replies. induction senders as [|sender rest IH]; intros replies; [done|].
  cbn. by rewrite IH.
Qed.

Lemma senders_all_return tokens body reg : forall replies,
  Forall (fun r => returned r = true)
         (sender_runs (map (fun token => sendPushWithRetry isExpoPushToken token body) tokens)
                      replies reg)
  <-> forallb prints tokens = true.
Proof.
  induction tokens as [|token rest IH]; intros replies; cbn; [done|].
  rewrite Forall_cons, IH, andb_true_iff. unfold returned at 1.
  rewrite sender_outcome. by destruct (prints token).
Qed.

Lemma senders_raise_type_errors tokens body reg r e : forall replies,
  r ∈ sender_runs (map (fun token => sendPushWithRetry isExpoPushToken token body) tokens)
                  replies reg ->
  outcome r = Raised e ->
  e = TypeError /\ forallb prints tokens = false.
Proof.
  induction tokens as [|token rest IH]; intros replies Hin Hraised; cbn in Hin.
  - by apply elem_of_nil in Hin.
  - apply elem_of_cons in Hin as [->|Hin].
    + rewrite sender_outcome in Hraised. cbn.
      destruct (prints token); [done|]. by injection Hraised as <-.
    + destruct (IH _ Hin Hraised) as [-> Hrest]. cbn. rewrite Hrest.
      by rewrite andb_false_r.
Qed.

Lemma some_sender_raises tokens body reg : forall replies,
  forallb prints tokens = false ->
  exists r,
    r ∈ sender_runs (map (fun token => sendPushWithRetry isExpoPushToken token body) tokens)
                    replies reg
    /\ outcome r = Raised TypeError.
Proof.
  induction tokens as [|token rest IH]; intros replies Hsome; cbn in Hsome; [done|].
  destruct (prints token) eqn:Htoken.
  - destruct (IH (fun i => replies (S i)) Hsome) as (r & Hin & Hraised).
    exists r. split; [|done]. cbn. apply elem_of_cons; by right.
  - eexists. split; [cbn; apply elem_of_cons; by left|].
    by rewrite sender_outcome, Htoken.
Qed.

(** The [await] of line 124 on the senders of [tokens]. *)
Lemma senders_end tokens body replies reg e :
  promise_all
    (sender_runs (map (fun token => sendPushWithRetry isExpoPushToken token body) tokens)
                 replies reg) e
  <-> e = if forallb prints tokens then Returned tt else Raised TypeError.
Proof.
  split.
  - intros Hend. inversion Hend as [runs Hall|runs r e' Hin Hraised]; subst.
    + apply senders_all_return in Hall. by rewrite Hall.
    + destruct (senders_raise_type_errors tokens body reg r e' replies Hin Hraised)
        as [-> Hsome].
      by rewrite Hsome.
  - intros ->. destruct (forallb prints tokens) eqn:Hall.
    + apply promise_all_fulfilled. by apply senders_all_return.
    + destruct (some_sender_raises tokens body reg replies Hall) as (r & Hin & Hraised).
      by apply (promise_all_rejected _ r).
Qed.

(** Up to line 124: a payload that is not blocked gets its multicast when
    the recipient is truthy, and the handler starts one sender per address
    that it obtained. *)
Lemma sendDirectMessage_starts payload w n reg :
  blocked payload ["senderId"; "recipientId"; "messageContent"] = false ->
  let r := run (sendDirectMessage isExpoPushToken socket_url payload) w n reg in
  outcome r
  = Returned (map (fun token => sendPushWithRetry isExpoPushToken token
                                  (opt_member payload "messageContent"))
                  (addressed socket_url payload w n reg))
  /\ (length (emitted (trace r)) = if truthy (opt_member payload "recipientId") then 1 else 0)%nat
  /\ final r = reg.
Proof.
  unfold blocked, prints, addressed. cbn [existsb].
  destruct (nullish payload) eqn:Hpayload; [done|].
  destruct (to_string (opt_member payload "senderId")) as [s1|] eqn:Hs1; [|done].
  destruct (to_string (opt_member payload "recipientId")) as [key|] eqn:Hkey; [|done].
  destruct (to_string (opt_member payload "messageContent")) as [s3|] eqn:Hs3; [|done].
  intros _. cbn zeta.
  destruct (truthy (opt_member payload "recipientId")) eqn:Htruthy.
  - rewrite (sendDirectMessage_run isExpoPushToken socket_url payload _ _ _ key s1 s3
               w n reg (member_opt payload _ Hpayload) (member_opt payload _ Hpayload)
               (member_opt payload _ Hpayload) Htruthy Hs1 Hkey Hs3).
    cbn zeta.
    destruct (getPushTokens_returns socket_url (opt_member payload "recipientId") key
                w n reg Hkey) as ([tokens Ho] & _ & _ & He & _).
    destruct (isOnline key reg); cbn; [done|]. by rewrite Ho, He.
  - unfold sendDirectMessage. rewrite !(member_opt payload _ Hpayload).
    cbn -[getPushTokens cell_to_string]. rewrite Hs1, Hkey, Hs3, Htruthy. done.
Qed.

(** A blocked payload makes the handler raise on its first lines. *)
Lemma sendDirectMessage_blocked payload w n reg :
  blocked payload ["senderId"; "recipientId"; "messageContent"] = true ->
  run (sendDirectMessage isExpoPushToken socket_url payload) w n reg
  = RunOf [] reg (Raised TypeError).
Proof.
  unfold blocked, prints. cbn [existsb].
  destruct (nullish payload) eqn:Hpayload; [by destruct payload|].
  unfold sendDirectMessage. rewrite !(member_opt payload _ Hpayload).
  destruct (to_string (opt_member payload "senderId")) as [s1|] eqn:Hs1;
    destruct (to_string (opt_member payload "recipientId")) as [key|] eqn:Hkey;
    destruct (to_string (opt_member payload "messageContent")) as [s3|] eqn:Hs3;
    cbn [negb orb]; try done; intros _;
    cbn -[getPushTokens cell_to_string]; rewrite ?Hs1, ?Hkey, ?Hs3;
    cbn -[getPushTokens cell_to_string]; done.
Qed.

(** Each handler, taken to its end, either returns or raises a TypeError.
    [sendGroupMessage], [directMessageRead] and [joinGroup] raise exactly
    when the payload is [undefined] or [null], or when a field that the
    handler prints does not convert to a string ([groupChatId] and
    [messageContent]; [messageId], [readerId] and the routing key
    [senderId]; [groupChatId]); a handler that raises so has emitted
    nothing, joined no room, asked nothing of the token directory or the
    push API, and left the registry as it was.  [sendDirectMessage] raises
    in the same way on such a payload ([senderId], [recipientId],
    [messageContent]), and in one more case: when, after the multicast, one
    of the push addresses that it obtained for an offline recipient does
    not convert to a string, so that a sender raises and the
    [await Promise.all] of line 124 with it. *)
Theorem handlers_raise_on_unprintable_payloads (sock : socket) payload w n reg replies :
  let direct := run (sendDirectMessage isExpoPushToken socket_url payload) w n reg in
  let group := run (sendGroupMessage payload) w n reg in
  let read := run (directMessageRead payload) w n reg in
  let join := run (joinGroup sock payload) w n reg in
  let blocked_direct := blocked payload ["senderId"; "recipientId"; "messageContent"] in
  let addresses := addressed socket_url payload w n reg in
  ((forall e, direct_message_ends isExpoPushToken socket_url payload w n reg replies e
              <-> e = if blocked_direct || negb (forallb prints addresses)
                      then Raised TypeError else Returned tt)
   /\ (blocked_direct = true -> delivered_nothing direct reg /\ started direct = [])
   /\ (blocked_direct = false -> forallb prints addresses = false ->
       length (emitted (trace direct)) = 1%nat /\ final direct = reg))
  /\ (type_error group = blocked payload ["groupChatId"; "messageContent"]
      /\ returned group = negb (type_error group)
      /\ (type_error group = true -> delivered_nothing group reg))
  /\ (type_error read = blocked payload ["messageId"; "readerId"; "senderId"]
      /\ returned read = negb (type_error read)
      /\ (type_error read = true -> delivered_nothing read reg))
  /\ (type_error join = blocked payload ["groupChatId"]
      /\ returned join = negb (type_error join)
      /\ (type_error join = true -> delivered_nothing join reg)).
Proof.
  intros direct group read join blocked_direct addresses.
  split.
  { subst direct. clear group read join.
    destruct blocked_direct eqn:Hblocked; subst blocked_direct.
    - pose proof (sendDirectMessage_blocked payload w n reg Hblocked) as Hrun.
      split; [|split; [|done]].
      + intros e. cbn [orb]. split.
        * intros Hend. inversion Hend as [e' Hraised|senders e' Hreturned _]; subst.
          -- rewrite Hrun in Hraised. cbn in Hraised. by injection Hraised as <-.
          -- by rewrite Hrun in Hreturned.
        * intros ->. apply ends_before_the_senders. by rewrite Hrun.
      + intros _. rewrite Hrun. unfold started. by repeat split.
    - destruct (sendDirectMessage_starts payload w n reg Hblocked)
        as (Hstarted & Hemitted & Hfinal).
      fold addresses in Hstarted.
      split; [|split; [done|]].
      + intros e. cbn [orb]. split.
        * intros Hend. inversion Hend as [e' Hraised|senders e' Hreturned Hsenders]; subst.
          -- by rewrite Hstarted in Hraised.
          -- rewrite Hstarted in Hreturned. injection Hreturned as <-.
             apply senders_end in Hsenders. rewrite Hsenders.
             by destruct (forallb prints addresses).
        * intros ->. apply (ends_with_the_senders _ _ _ _ _ _ _ _ _ Hstarted).
          apply senders_end. by destruct (forallb prints addresses).
      + intros _ Hsome. split; [|done]. rewrite Hemitted.
        destruct (truthy (opt_member payload "recipientId")) eqn:Htruthy; [done|].
        subst addresses. unfold addressed in Hsome. rewrite Htruthy in Hsome.
        cbn in Hsome. by destruct (to_string _). }
  destruct (nullish payload) eqn:Hpayload.
  { destruct payload; try done; repeat split; done. }
  unfold blocked, prints. rewrite Hpayload. cbn [orb existsb].
  split; [|split].
  - subst group. clear direct read join.
    unfold sendGroupMessage. rewrite !(member_opt payload _ Hpayload).
    destruct (to_string (opt_member payload "groupChatId")) as [key|] eqn:Hkey;
      destruct (to_string (opt_member payload "messageContent")) as [s3|] eqn:Hs3;
      cbn; rewrite ?Hkey, ?Hs3; cbn; try (repeat split; done).
    destruct (truthy (opt_member payload "groupChatId")); cbn; rewrite ?Hkey; done.
  - subst read. clear direct group join.
    unfold directMessageRead. rewrite !(member_opt payload _ Hpayload).
    pose proof (unprintable_truthy (opt_member payload "senderId")) as Hobject.
    destruct (to_string (opt_member payload "messageId")) as [s1|] eqn:Hs1;
      destruct (to_string (opt_member payload "readerId")) as [s3|] eqn:Hs3;
      destruct (to_string (opt_member payload "senderId")) as [key|] eqn:Hkey;
      destruct (truthy (opt_member payload "senderId")) eqn:Htruthy;
      try (by specialize (Hobject eq_refl));
      cbn; rewrite ?Hs1, ?Hs3, ?Htruthy; cbn; rewrite ?Hkey; repeat split; done.
  - subst join. clear direct group read.
    unfold joinGroup. rewrite !(member_opt payload _ Hpayload).
    destruct (to_string (opt_member payload "groupChatId")) as [key|] eqn:Hkey;
      cbn; rewrite ?Hkey; cbn; try (repeat split; done).
    destruct (truthy (opt_member payload "groupChatId")); cbn; rewrite ?Hkey; done.
Qed.

(** The push fallback of one direct message is bounded.  When the
    directory lists [records] for the recipient, the handler starts no more
    senders than there are records; every sender, whatever the replies of
    the push API, calls the API at most 5 times and waits 15 seconds at
    most, emits nothing and leaves the registry as it finds it; so one
    direct message makes at most 5 calls of the push API per record. *)
Theorem direct_message_push_budget
    payload rid sid mc (key s1 s3 : string) w n reg (records : list value) replies reg' :
  member payload "recipientId" = Some rid ->
  member payload "senderId" = Some sid ->
  member payload "messageContent" = Some mc ->
  truthy rid = true ->
  to_string sid = Some s1 -> to_string rid = Some key -> to_string mc = Some s3 ->
  directory_lists w (token_url socket_url key) records ->
  let senders := started (run (sendDirectMessage isExpoPushToken socket_url payload) w n reg) in
  let runs := sender_runs senders replies reg' in
  (length runs <= length records)%nat
  /\ Forall (fun s => (length (batches (trace s)) <= 5)%nat
                      /\ 0 <= total_delay (trace s) <= 15000
                      /\ emitted (trace s) = [] /\ final s = reg')
            runs
  /\ (length (concat (map (fun s => batches (trace s)) runs)) <= 5 * length records)%nat.
Proof.
  intros Hrid Hsid Hmc Htruthy Hs1 Hkey Hs3 (res & data & Hreply & Hok & Hjson & Hitems & Hrec)
    senders runs.
  assert (exists tokens,
            senders = map (fun token => sendPushWithRetry isExpoPushToken token mc) tokens
            /\ (length tokens <= length records)%nat) as (tokens & Hsenders & Hlength).
  { subst senders. unfold started.
    rewrite (sendDirectMessage_run isExpoPushToken socket_url payload rid sid mc key s1 s3
               w n reg Hrid Hsid Hmc Htruthy Hs1 Hkey Hs3).
    cbn zeta. destruct (isOnline key reg).
    - exists []. cbn. split; [done|lia].
    - rewrite (getPushTokens_run socket_url rid key w n reg Hkey). cbn zeta.
      rewrite Hreply, Hok, Hjson, (tokens_of_records data records Hitems Hrec).
      eexists. split; [reflexivity|].
      etrans; [apply List.filter_length_le|]. by rewrite length_map. }
  assert (forall replies' : nat -> world,
            Forall (fun s => (length (batches (trace s)) <= 5)%nat
                             /\ 0 <= total_delay (trace s) <= 15000
                             /\ emitted (trace s) = [] /\ final s = reg')
                   (sender_runs senders replies' reg')) as Hbounded.
  { rewrite Hsenders. clear. induction tokens as [|token rest IH]; intros replies'; cbn.
    - constructor.
    - constructor; [|apply IH].
      destruct (sender_calls_and_delays isExpoPushToken token mc (replies' 0%nat) reg')
        as ((Hlen & _) & (_ & Hdelay) & _).
      destruct (sender_events_quiet _
                  (run_sends_only _ (replies' 0%nat) 0 reg'
                     (sendPushWithRetry_sends_only isExpoPushToken token mc)))
        as (Hemit & _).
      pose proof (proj1 (run_writes_nothing _ (replies' 0%nat) 0 reg'
                           (sendPushWithRetry_writes_nothing isExpoPushToken token mc)))
        as Hfinal.
      done. }
  assert (length runs = length tokens) as Hruns
    by (subst runs; by rewrite sender_runs_length, Hsenders, length_map).
  split; [lia|]. split; [apply Hbounded|].
  assert (length (concat (map (fun s => batches (trace s)) runs)) <= 5 * length runs)%nat
    as Htotal.
  { specialize (Hbounded replies). fold runs in Hbounded. clear -Hbounded.
    induction Hbounded as [|s runs (Hs & _) _ IH]; cbn; [lia|].
    rewrite length_app. lia. }
  lia.
Qed.

End HandlerEnd.

Lemma direct_message_push_budget_witness :
  truthy (VStr "bob") = true
  /\ (length (sender_runs
                (started (run (sendDirectMessage bracketed_token None (hi_to "bob"))
                              (sample_directory "bob") 0 only_A_online))
                (fun _ => failing_at_once) only_A_online)
      <= length sample_records)%nat.
Proof.
  split; [reflexivity|].
  exact (proj1 (direct_message_push_budget bracketed_token None (hi_to "bob")
                  (VStr "bob") (VStr "A") (VStr "hi") "bob" "A" "hi"
                  (sample_directory "bob") 0 only_A_online sample_records
                  (fun _ => failing_at_once) only_A_online
                  eq_refl eq_refl eq_refl eq_refl eq_refl eq_refl eq_refl
                  (sample_directory_lists "bob"))).
Defined.

(** ** The startup script *)

Lemma PORT_prints (env : gmap string string) : is_Some (to_string (PORT env)).
Proof.
  unfold PORT, env_var. destruct (env !! "PORT") as [s|]; cbn; [|by eexists].
  destruct (negb (String.eqb s "")); cbn; by eexists.
Qed.

Ltac library_calls h :=
  repeat match goal with
         | |- context [throws h ?c] =>
             let Hthrows := fresh "Hthrows" in
             destruct (throws h c) eqn:Hthrows; cbn; try done
         end.

Ltac no_throw h Hh :=
  repeat match goal with
         | |- context [throws h ?c] => rewrite (Hh c); cbn -[PORT]
         end.

(** With both [SSL_KEY_PATH] and [SSL_CERT_PATH] set to non-empty strings
    (after the env file was loaded), the script never listens, on any
    machine: it ends with an exception, has opened no port and has attached
    socket.io to no server.  On a machine where no library call throws, it
    reads the key file and the certificate file, creates the https server,
    and ends on line 163, where [listen] is read from [undefined]. *)
Theorem startup_never_listens_with_ssl (h : host) (env0 : gmap string string) :
  let env := dotenv_config h (envFile env0) env0 in
  ssl_configured env = true ->
  let b := startup h env0 in
  (exists e, boot_ended b = inl e)
  /\ Forall (fun c => listens c = false) (boot_calls b)
  /\ Forall (fun c => serves c = false) (boot_calls b)
  /\ (peaceful h ->
      boot_ended b = inl ListenOfUndefined
      /\ boot_calls b
         = [DotenvConfig (envFile env0); Express; Cors; AppUse;
            ReadFileSync (env_var env "SSL_KEY_PATH");
            ReadFileSync (env_var env "SSL_CERT_PATH");
            HttpsCreateServer (read_file h (env_var env "SSL_KEY_PATH"))
                              (read_file h (env_var env "SSL_CERT_PATH"));
            NewServer None; NewExpo; IoOnConnection]).
Proof.
  intros env Hssl b. subst b. unfold startup. fold env. rewrite Hssl.
  destruct (PORT_prints env) as [port Hport].
  split; [|split; [|split]].
  - unfold readFileSync, lib. cbn.
    library_calls h; try by eexists.
    all: destruct (truthy (env_var env "EXPO_PUBLIC_SOCKET_URL")); cbn; rewrite ?Hport;
      cbn; by eexists.
  - unfold readFileSync, lib. cbn.
    library_calls h; try by repeat constructor.
    all: destruct (truthy (env_var env "EXPO_PUBLIC_SOCKET_URL")); cbn; rewrite ?Hport;
      cbn; by repeat constructor.
  - unfold readFileSync, lib. cbn.
    library_calls h; try by repeat constructor.
    all: destruct (truthy (env_var env "EXPO_PUBLIC_SOCKET_URL")); cbn; rewrite ?Hport;
      cbn; by repeat constructor.
  - intros Hh. unfold readFileSync, lib. cbn. no_throw h Hh.
    destruct (truthy (env_var env "EXPO_PUBLIC_SOCKET_URL")); cbn; rewrite ?Hport; done.
Qed.

Lemma startup_never_listens_with_ssl_witness :
  ssl_configured (dotenv_config bare_host (envFile ssl_env) ssl_env) = true
  /\ boot_ended (startup bare_host ssl_env) = inl ListenOfUndefined.
Proof.
  split; [reflexivity|].
  destruct (startup_never_listens_with_ssl bare_host ssl_env eq_refl)
    as (_ & _ & _ & Hpeaceful).
  exact (proj1 (Hpeaceful (fun c => eq_refl))).
Defined.

(** The text of the port: the variable [PORT] when it is set and not
    empty, 3001 otherwise. *)
Lemma PORT_text (env : gmap string string) :
  to_string (PORT env)
  = Some (match env !! "PORT" with
          | Some s => if String.eqb s "" then "3001" else s
          | None => "3001"
          end).
Proof.
  unfold PORT, env_var. destruct (env !! "PORT") as [s|]; cbn; [|done].
  by destruct (String.eqb s "").
Qed.

(** Without the two SSL variables (one of them unset or empty, after the
    env file was loaded), the script reads no file, on any machine, and
    opens at most one port.  On a machine where no library call throws it
    runs to its end: it creates the http server, attaches socket.io to it,
    registers the connection handler and listens, once, on [PORT], which is
    the variable [PORT] when that is set and not empty, and 3001 otherwise.
    When the server listens, the callback logs two lines: the address, which
    is [EXPO_PUBLIC_SOCKET_URL] when that is set and not empty and
    [http://localhost:<PORT>] otherwise, and the port. *)
Theorem startup_listens_over_http (h : host) (env0 : gmap string string) :
  let env := dotenv_config h (envFile env0) env0 in
  ssl_configured env = false ->
  let b := startup h env0 in
  let port := match env !! "PORT" with
              | Some s => if String.eqb s "" then "3001" else s
              | None => "3001"
              end in
  let address := match env !! "EXPO_PUBLIC_SOCKET_URL" with
                 | Some s => if String.eqb s "" then "http://localhost:" +:+ port else s
                 | None => "http://localhost:" +:+ port
                 end in
  Forall (fun c => reads_file c = false) (boot_calls b)
  /\ (length (List.filter listens (boot_calls b)) <= 1)%nat
  /\ (peaceful h ->
      boot_ended b = inr tt
      /\ exists callback,
           boot_calls b
           = [DotenvConfig (envFile env0); Express; Cors; AppUse; HttpCreateServer;
              NewServer (Some HttpServer); NewExpo; IoOnConnection;
              ServerListen HttpServer (PORT env) callback]
           /\ to_string (PORT env) = Some port
           /\ forall w n reg,
                run callback w n reg
                = RunOf [EConsole Log ("✅ Socket server running on address " +:+ address);
                         EConsole Log ("✅ Socket server running on port " +:+ port)]
                        reg (Returned tt)).
Proof.
  intros env Hssl b port address. subst b. unfold startup. fold env. rewrite Hssl.
  pose proof (PORT_text env) as Hport. fold port in Hport.
  split; [|split].
  - unfold lib. cbn. library_calls h; try by repeat constructor.
    all: destruct (truthy (env_var env "EXPO_PUBLIC_SOCKET_URL")); cbn; rewrite ?Hport;
      cbn; library_calls h; by repeat constructor.
  - unfold lib. cbn. library_calls h; try lia.
    all: destruct (truthy (env_var env "EXPO_PUBLIC_SOCKET_URL")); cbn; rewrite ?Hport;
      cbn; library_calls h; lia.
  - intros Hh. unfold lib. cbn -[PORT]. no_throw h Hh.
    unfold address, env_var.
    destruct (env !! "EXPO_PUBLIC_SOCKET_URL") as [url|] eqn:Hurl; cbn -[PORT].
    + destruct (String.eqb url "") eqn:Hempty; cbn -[PORT]; rewrite ?Hport; cbn -[PORT]; no_throw h Hh.
      * split; [done|]. eexists. split; [reflexivity|]. split; [done|].
        intros w n reg. unfold listening. cbn -[PORT]. rewrite ?Hport. cbn -[PORT].
        by rewrite !append_empty.
      * split; [done|]. eexists. split; [reflexivity|]. split; [done|].
        intros w n reg. unfold listening. cbn -[PORT]. rewrite ?Hport. cbn -[PORT].
        by rewrite !append_empty.
    + rewrite Hport. cbn -[PORT]. no_throw h Hh.
      split; [done|]. eexists. split; [reflexivity|]. split; [done|].
      intros w n reg. unfold listening. cbn -[PORT]. rewrite ?Hport. cbn -[PORT].
      by rewrite !append_empty.
Qed.

Lemma startup_listens_over_http_witness :
  ssl_configured (dotenv_config bare_host (envFile production_env) production_env) = false
  /\ boot_ended (startup bare_host production_env) = inr tt
  /\ map listens (boot_calls (startup bare_host production_env))
     = [false; false; false; false; false; false; false; false; true].
Proof.
  split; [reflexivity|].
  destruct (startup_listens_over_http bare_host production_env eq_refl)
    as (_ & _ & Hpeaceful).
  destruct (Hpeaceful (fun c => eq_refl)) as (Hended & callback & Hcalls & _).
  split; [exact Hended|]. rewrite Hcalls. reflexivity.
Defined.
